(** * Sensor_LDR: luminosity model and telemetry loop

    Shallow embedding of [sensor_ldr.cpp] (console variant) and
    [clienteUDP_sensor_ldr.cpp] (UDP client variant).

    Both programs read a raw ADC code from a sysfs file, turn it into the
    resistance of the LDR through the voltage-divider relation, map that
    resistance on a logarithmic scale to a percentage and report it once
    per second (on the console, or as a UDP datagram).

    ** Modelling of C++ [float] / [double]

    The source computes in IEEE-754 arithmetic.  A value is modelled by
    [fval]: not-a-number, a signed infinity, or a finite real.  The special
    values follow IEEE-754 (division of a non-zero by zero is an infinity,
    [log 0] is minus infinity, [log] of a negative is not-a-number, every
    ordered comparison with not-a-number is false).  The rounding of finite
    results to the binary32/binary64 grids is NOT modelled: finite
    operations are exact and [log] is the real natural logarithm.  The only
    zeros the programs divide by come from the conversion of the integer 0,
    hence are positive zeros; the model has a single (positive) zero.
    One [flog] stands for the two ways the files reach the logarithm:
    [std::log(float)] in the client (it has [using namespace std]) and
    [::log(double)] converted to [float] in the console program.  Since
    the roundings are left out, what is proved about the value of the
    percentage is stated for the calibration the two classes initialise
    their members with.

    A conversion [static_cast<int>] of a value that is not finite or does
    not fit an [int] is undefined behaviour in C++; it is modelled by
    [None]. *)

From Stdlib Require Import Reals Lra Lia ZArith Bool String Ascii List.
From Stdlib Require Import DecimalString DecimalZ DecimalPos.
Import ListNotations.

(* ================================================================= *)
(** ** IEEE-754 values with exact finite arithmetic                   *)
(* ================================================================= *)

Module Float.

Local Open Scope R_scope.

Inductive fval : Type :=
| NaN
| Inf (neg : bool)
| Fin (x : R).

Definition Rltb (x y : R) : bool := if Rlt_dec x y then true else false.
Definition Rleb (x y : R) : bool := if Rle_dec x y then true else false.
Definition Reqb (x y : R) : bool := if Req_dec_T x y then true else false.

(** [a - b] *)
Definition fsub (a b : fval) : fval :=
  match a, b with
  | NaN, _ | _, NaN => NaN
  | Inf s, Inf t => if Bool.eqb s t then NaN else Inf s
  | Inf s, Fin _ => Inf s
  | Fin _, Inf t => Inf (negb t)
  | Fin x, Fin y => Fin (x - y)
  end.

(** [a * b] *)
Definition fmul (a b : fval) : fval :=
  match a, b with
  | NaN, _ | _, NaN => NaN
  | Inf s, Inf t => Inf (xorb s t)
  | Inf s, Fin y => if Reqb y 0 then NaN else Inf (xorb s (Rltb y 0))
  | Fin x, Inf t => if Reqb x 0 then NaN else Inf (xorb (Rltb x 0) t)
  | Fin x, Fin y => Fin (x * y)
  end.

(** [a / b]; a finite zero divisor is a positive zero *)
Definition fdiv (a b : fval) : fval :=
  match a, b with
  | NaN, _ | _, NaN => NaN
  | Inf _, Inf _ => NaN
  | Inf s, Fin y => Inf (xorb s (Rltb y 0))
  | Fin x, Inf _ => Fin 0
  | Fin x, Fin y =>
      if Reqb y 0
      then (if Reqb x 0 then NaN else Inf (Rltb x 0))
      else Fin (x / y)
  end.

(** [log a] of <cmath>: the real logarithm on positive finite values,
    without the rounding of [std::log(float)] or of [::log(double)]
    converted to [float]; IEEE-754 on the special values. *)
Definition flog (a : fval) : fval :=
  match a with
  | NaN => NaN
  | Inf false => Inf false
  | Inf true => NaN
  | Fin x =>
      if Rltb 0 x then Fin (ln x)
      else if Rltb x 0 then NaN
      else Inf true
  end.

(** [a < b] *)
Definition flt (a b : fval) : bool :=
  match a, b with
  | NaN, _ | _, NaN => false
  | Inf s, Inf t => s && negb t
  | Inf s, Fin _ => s
  | Fin _, Inf t => negb t
  | Fin x, Fin y => Rltb x y
  end.

(** [a > b] *)
Definition fgt (a b : fval) : bool := flt b a.

(** [a <= b] *)
Definition fle (a b : fval) : bool :=
  match a, b with
  | NaN, _ | _, NaN => false
  | Inf s, Inf t => s || negb t
  | Inf s, Fin _ => s
  | Fin _, Inf t => negb t
  | Fin x, Fin y => Rleb x y
  end.

(** [a >= b] *)
Definition fge (a b : fval) : bool := fle b a.

(** Implicit conversion [int -> float]. *)
Definition float_of_int (z : Z) : fval := Fin (IZR z).

(** Truncation toward zero of a real. *)
Definition Rtrunc (x : R) : Z :=
  if Rlt_dec x 0 then (- Int_part (- x))%Z else Int_part x.

Definition INT_MIN : Z := (- 2147483648)%Z.
Definition INT_MAX : Z := 2147483647%Z.

(** [static_cast<int>(a)]: truncates toward zero; undefined ([None]) when
    [a] is not finite or the truncated value does not fit an [int]. *)
Definition static_cast_int (a : fval) : option Z :=
  match a with
  | Fin x =>
      let z := Rtrunc x in
      if ((INT_MIN <=? z) && (z <=? INT_MAX))%Z then Some z else None
  | _ => None
  end.

End Float.

Import Float.

(* ================================================================= *)
(** ** Collaborators shared by the two programs                       *)
(* ================================================================= *)

(** State of the sysfs file at the moment [std::ifstream file(path)] is
    executed: it cannot be opened, or it is open and [file >> valor]
    extracts [reading]. *)
Inductive adc_source : Type :=
| Unavailable
| Available (reading : Z).

(** What a program does to the outside world. *)
Inductive event : Type :=
| EvCout (line : string)
| EvCerr (line : string)
| EvPerror (msg : string)
| EvSendto (fd : Z) (message : string) (message_len : nat)
| EvSleep (seconds : nat)
| EvClose (fd : Z).

Definition is_sendto (ev : event) : bool :=
  match ev with EvSendto _ _ _ => true | _ => false end.

Definition is_sleep (ev : event) : bool :=
  match ev with EvSleep _ => true | _ => false end.

(** The ADC file is missing, or holds a code of the 12-bit converter. *)
Definition valid_adc (src : adc_source) : bool :=
  match src with
  | Unavailable => true
  | Available raw => ((0 <=? raw) && (raw <=? 4095))%Z
  end.

(** [std::to_string(int)] and [operator<<(int)]: decimal rendering. *)
Definition to_string (v : Z) : string :=
  NilZero.string_of_int (Z.to_int v).

(** Reading a decimal rendering back (the collector's side). *)
Definition of_string (s : string) : option Z :=
  option_map Z.of_int (NilZero.int_of_string s).

Definition is_digit (c : ascii) : bool :=
  let n := nat_of_ascii c in ((48 <=? n) && (n <=? 57))%nat.

Fixpoint all_digits (s : string) : bool :=
  match s with
  | EmptyString => true
  | String c s' => is_digit c && all_digits s'
  end.

Definition ADC_PATH : string :=
  "/sys/bus/iio/devices/iio:device0/in_voltage13_raw".

(* ================================================================= *)
(** ** sensor_ldr.cpp                                                 *)
(* ================================================================= *)

Module Standalone.

Local Open Scope R_scope.

Record SensorLDR : Type := {
  path : string;
  R_CLARO : fval;
  R_ESCURO : fval;
  ADC_MAX : fval;
  R_FIXO : fval
}.

(** Constructor, with the default member initialisers. *)
Definition SensorLDR_new (adcPath : string) : SensorLDR := {|
  path := adcPath;
  R_CLARO := Fin (146 * 1e3);
  R_ESCURO := Fin (5 * 1e6);
  ADC_MAX := Fin 4095.0;
  R_FIXO := Fin 10000.0
|}.

(** [lerValor]: [valor] is declared without initialiser and the stream is
    not checked; when the file cannot be opened the extraction leaves
    [valor] untouched and the method returns an indeterminate value
    ([None]). *)
Definition lerValor (self : SensorLDR) (src : adc_source) : option Z :=
  match src with
  | Available valor => Some valor
  | Unavailable => None
  end.

(** The local [r_ldr] of [lerLuminosidadePercentual], as a function of the
    local [valor]: [R_FIXO*(ADC_MAX - valor)/valor]. *)
Definition r_ldr_of (self : SensorLDR) (valor : Z) : fval :=
  fdiv (fmul (R_FIXO self) (fsub (ADC_MAX self) (float_of_int valor)))
       (float_of_int valor).

Definition lerLuminosidadePercentual (self : SensorLDR) (src : adc_source)
  : option Z :=
  match lerValor self src with
  | None => None
  | Some valor =>
      let r_ldr := r_ldr_of self valor in
      let log_r_ldr := flog r_ldr in
      let log_r_claro := flog (R_CLARO self) in
      let log_r_escuro := flog (R_ESCURO self) in
      if fgt log_r_ldr log_r_escuro then Some 0%Z
      else if flt log_r_ldr log_r_claro then Some 100%Z
      else
        let porcentagem :=
          fdiv (fmul (Fin 100.0) (fsub log_r_escuro log_r_ldr))
               (fsub log_r_escuro log_r_claro) in
        static_cast_int porcentagem
  end.

(** One turn of [while (true)] in [main]; [None] when the turn has
    undefined behaviour. *)
Definition cycle (ldr : SensorLDR) (src : adc_source) : option (list event) :=
  match lerLuminosidadePercentual ldr src with
  | None => None
  | Some val =>
      Some [EvCout ("Luminosidade: " ++ to_string val ++ "%"); EvSleep 1]
  end.

Fixpoint loop (ldr : SensorLDR) (srcs : list adc_source)
  : option (list event) :=
  match srcs with
  | [] => Some []
  | src :: rest =>
      match cycle ldr src with
      | None => None
      | Some evs =>
          match loop ldr rest with
          | None => None
          | Some evs' => Some (evs ++ evs')
          end
      end
  end.

(** [main] run against the first [length srcs] states of the ADC file. *)
Definition main (srcs : list adc_source) : option (list event) :=
  let ldr := SensorLDR_new ADC_PATH in
  loop ldr srcs.

End Standalone.

(* ================================================================= *)
(** ** clienteUDP_sensor_ldr.cpp                                      *)
(* ================================================================= *)

Module ClienteUDP.

Local Open Scope R_scope.

Definition SERVER_IP : string := "192.168.42.10".
Definition PORT : Z := 8080.
Definition BUFFER_SIZE : Z := 1024.

Record SensorLDR : Type := {
  path : string;
  R_CLARO : fval;
  R_ESCURO : fval;
  ADC_MAX : fval;
  R_FIXO : fval
}.

(** Constructor, with the default member initialisers. *)
Definition SensorLDR_new (adcPath : string) : SensorLDR := {|
  path := adcPath;
  R_CLARO := Fin (146 * 1e3);
  R_ESCURO := Fin (5 * 1e6);
  ADC_MAX := Fin 4095.0;
  R_FIXO := Fin 10000.0
|}.

(** [lerValor]: [valor] starts at 0; it is overwritten only when the file
    is open, otherwise a line is written to [cerr]. *)
Definition lerValor (self : SensorLDR) (src : adc_source)
  : Z * list event :=
  let valor := 0%Z in
  match src with
  | Available reading => (reading, [])
  | Unavailable =>
      (valor,
       [EvCerr ("Erro: Nao foi possivel abrir o arquivo ADC em " ++ path self)])
  end.

(** The local [r_ldr] of [lerLuminosidadePercentual], as a function of the
    local [valor]: [R_FIXO * (ADC_MAX - valor) / valor]. *)
Definition r_ldr_of (self : SensorLDR) (valor : Z) : fval :=
  fdiv (fmul (R_FIXO self) (fsub (ADC_MAX self) (float_of_int valor)))
       (float_of_int valor).

(** [lerLuminosidadePercentual]: the returned [int] ([None] when the final
    cast is undefined) and what [lerValor] wrote on the way. *)
Definition lerLuminosidadePercentual (self : SensorLDR) (src : adc_source)
  : option Z * list event :=
  let '(valor, evs) := lerValor self src in
  let r_ldr := r_ldr_of self valor in
  let log_r_ldr := flog r_ldr in
  let log_r_claro := flog (R_CLARO self) in
  let log_r_escuro := flog (R_ESCURO self) in
  if fgt log_r_ldr log_r_escuro then (Some 0%Z, evs)
  else if flt log_r_ldr log_r_claro then (Some 100%Z, evs)
  else
    let porcentagem :=
      fdiv (fmul (Fin 100.0) (fsub log_r_escuro log_r_ldr))
           (fsub log_r_escuro log_r_claro) in
    (static_cast_int porcentagem, evs).

(** What the environment answers during one turn of the loop: the state
    of the ADC file and the value returned by [sendto]. *)
Record cycle_env : Type := {
  adc : adc_source;
  sendto_result : Z
}.

(** What the environment answers before the loop. *)
Record setup_env : Type := {
  socket_result : Z;
  inet_pton_result : Z
}.

(** The locals of [main] that live across turns, and the events so far. *)
Record state : Type := {
  ldr : SensorLDR;
  client_socket : Z;
  out : list event
}.

Definition emit (st : state) (evs : list event) : state :=
  {| ldr := ldr st; client_socket := client_socket st;
     out := out st ++ evs |}.

(** The events of one turn of [while (true)]; [None] when the turn has
    undefined behaviour. *)
Definition cycle_events (l : SensorLDR) (fd : Z) (e : cycle_env)
  : option (list event) :=
  let '(val, evs) := lerLuminosidadePercentual l (adc e) in
  match val with
  | None => None
  | Some val =>
      let val_str := to_string val in
      let message := val_str in
      let message_len := String.length val_str in
      let bytes_sent := sendto_result e in
      let sent := [EvSendto fd message message_len] in
      if (bytes_sent =? -1)%Z then
        Some (evs ++ sent ++ [EvPerror "Erro ao enviar datagrama"])
      else
        Some (evs ++ sent ++
              [EvCout ("Datagrama enviado (" ++ to_string bytes_sent
                       ++ " bytes) para " ++ SERVER_IP ++ ":"
                       ++ to_string PORT);
               EvCout ("Luminosidade: " ++ message ++ "%");
               EvSleep 1])
  end.

Definition cycle (st : state) (e : cycle_env) : option state :=
  match cycle_events (ldr st) (client_socket st) e with
  | None => None
  | Some evs => Some (emit st evs)
  end.

(** The loop run against a finite prefix of the environment's answers.
    The source loop has no [break] and no [return]: it is left only by
    running out of answers here. *)
Fixpoint loop (st : state) (es : list cycle_env) : option state :=
  match es with
  | [] => Some st
  | e :: rest =>
      match cycle st e with
      | None => None
      | Some st' => loop st' rest
      end
  end.

Inductive outcome : Type :=
| Returned (code : Z) (trace : list event)
| InLoop (st : state)
| Undefined.

Definition main (se : setup_env) (es : list cycle_env) : outcome :=
  let ldr0 := SensorLDR_new ADC_PATH in
  let client_socket := socket_result se in
  if (client_socket <? 0)%Z then
    Returned (-1) [EvPerror "Erro ao criar o socket UDP do cliente"]
  else if (inet_pton_result se <=? 0)%Z then
    Returned (-1) [EvPerror "Endereco IP invalido/nao suportado";
                   EvClose client_socket]
  else
    match loop {| ldr := ldr0; client_socket := client_socket;
                  out := [EvCout "Socket UDP criado com sucesso."] |} es with
    | None => Undefined
    | Some st => InLoop st
    end.

End ClienteUDP.

(* ================================================================= *)
(** ** The model as the specification words it                        *)
(* ================================================================= *)

Module Spec.

Local Open Scope R_scope.

Definition R_LIGHT : R := 146000.
Definition R_DARK : R := 5000000.
Definition ADC_max : Z := 4095.
Definition R_fixed : R := 10000.

(** [R_sensor = R_fixed * (ADC_max - raw) / raw] *)
Definition R_sensor (raw : Z) : R :=
  R_fixed * (IZR ADC_max - IZR raw) / IZR raw.

(** [100 * (log(R_DARK) - log(R_sensor)) / (log(R_DARK) - log(R_LIGHT))] *)
Definition interpolation (raw : Z) : R :=
  100 * (ln R_DARK - ln (R_sensor raw)) / (ln R_DARK - ln R_LIGHT).

(** The interpolation truncated toward zero to an integer. *)
Definition pct (raw : Z) : Z := Rtrunc (interpolation raw).

End Spec.

(** The part of [lerLuminosidadePercentual] after [log_r_ldr] is known,
    with the logarithms of the two calibration constants in place. *)
Definition decide_pct (log_r_ldr : fval) : option Z :=
  let log_r_claro := Fin (ln Spec.R_LIGHT) in
  let log_r_escuro := Fin (ln Spec.R_DARK) in
  if fgt log_r_ldr log_r_escuro then Some 0%Z
  else if flt log_r_ldr log_r_claro then Some 100%Z
  else
    static_cast_int
      (fdiv (fmul (Fin 100.0) (fsub log_r_escuro log_r_ldr))
            (fsub log_r_escuro log_r_claro)).

(** What [decide_pct] computes on a finite logarithm [l], on the reals:
    the two strict tests of the code, then the truncated interpolation. *)
Definition percent_of_log (l : R) : Z :=
  if Rlt_dec (ln Spec.R_DARK) l then 0%Z
  else if Rlt_dec l (ln Spec.R_LIGHT) then 100%Z
  else Rtrunc (100 * (ln Spec.R_DARK - l) / (ln Spec.R_DARK - ln Spec.R_LIGHT)).

(* ================================================================= *)
(** ** Observations on traces                                         *)
(* ================================================================= *)

Definition is_perror (ev : event) : bool :=
  match ev with EvPerror _ => true | _ => false end.

Definition is_close (ev : event) : bool :=
  match ev with EvClose _ => true | _ => false end.

Definition is_cout (ev : event) : bool :=
  match ev with EvCout _ => true | _ => false end.

(** The test [bytes_sent == -1] of the UDP client's loop, negated. *)
Definition send_ok (e : ClienteUDP.cycle_env) : bool :=
  negb (ClienteUDP.sendto_result e =? -1)%Z.

(** Every datagram of the trace was sent on descriptor [fd]. *)
Definition sent_on (fd : Z) (ev : event) : Prop :=
  match ev with
  | EvSendto fd' _ _ => fd' = fd
  | _ => True
  end.

(** The ADC file is open and holds a code of the 12-bit converter. *)
Definition in_range_adc (src : adc_source) : bool :=
  match src with
  | Unavailable => false
  | Available raw => ((0 <=? raw) && (raw <=? 4095))%Z
  end.

(* ================================================================= *)
(** ** Facts about the arithmetic model                               *)
(* ================================================================= *)

Section FloatFacts.

Local Open Scope R_scope.

Lemma Rltb_true (x y : R) : x < y -> Rltb x y = true.
Proof. intro H; unfold Rltb; destruct (Rlt_dec x y); [reflexivity | contradiction]. Qed.

Lemma Rltb_false (x y : R) : y <= x -> Rltb x y = false.
Proof. intro H; unfold Rltb; destruct (Rlt_dec x y); [lra | reflexivity]. Qed.

Lemma Rltb_iff (x y : R) : Rltb x y = true <-> x < y.
Proof.
  unfold Rltb; destruct (Rlt_dec x y); split; intro H;
    try reflexivity; try assumption; try discriminate; contradiction.
Qed.

Lemma Rleb_iff (x y : R) : Rleb x y = true <-> x <= y.
Proof.
  unfold Rleb; destruct (Rle_dec x y); split; intro H;
    try reflexivity; try assumption; try discriminate; contradiction.
Qed.

Lemma Reqb_true (x y : R) : x = y -> Reqb x y = true.
Proof. intro H; unfold Reqb; destruct (Req_dec_T x y); [reflexivity | contradiction]. Qed.

Lemma Reqb_false (x y : R) : x <> y -> Reqb x y = false.
Proof. intro H; unfold Reqb; destruct (Req_dec_T x y); [contradiction | reflexivity]. Qed.

Lemma fdiv_fin (x y : R) : y <> 0 -> fdiv (Fin x) (Fin y) = Fin (x / y).
Proof. intro H; simpl; rewrite (Reqb_false _ _ H); reflexivity. Qed.

Lemma fdiv_pos_zero (x : R) : 0 < x -> fdiv (Fin x) (Fin 0) = Inf false.
Proof.
  intro H; simpl. rewrite (Reqb_true 0 0 eq_refl).
  rewrite Reqb_false by lra. rewrite Rltb_false by lra. reflexivity.
Qed.

Lemma flog_pos (x : R) : 0 < x -> flog (Fin x) = Fin (ln x).
Proof. intro H; simpl; rewrite (Rltb_true _ _ H); reflexivity. Qed.

Lemma flog_zero : flog (Fin 0) = Inf true.
Proof. simpl. rewrite !Rltb_false by lra. reflexivity. Qed.

Lemma flog_neg (x : R) : x < 0 -> flog (Fin x) = NaN.
Proof.
  intro H; simpl. rewrite Rltb_false by lra. rewrite Rltb_true by lra.
  reflexivity.
Qed.

(** [Rtrunc] rounds toward zero: its value lies between 0 and the
    argument, less than one away from the argument. *)
Lemma Rtrunc_nonneg (x : R) :
  0 <= x -> IZR (Rtrunc x) <= x < IZR (Rtrunc x) + 1.
Proof.
  intro H. unfold Rtrunc. destruct (Rlt_dec x 0) as [Hn | _]; [lra |].
  destruct (base_Int_part x). lra.
Qed.

Lemma Rtrunc_neg (x : R) :
  x < 0 -> IZR (Rtrunc x) - 1 < x <= IZR (Rtrunc x).
Proof.
  intro H. unfold Rtrunc. destruct (Rlt_dec x 0) as [_ | Hn]; [| lra].
  destruct (base_Int_part (- x)). rewrite opp_IZR. lra.
Qed.

Lemma Rtrunc_toward_zero (x : R) :
  Rabs (IZR (Rtrunc x)) <= Rabs x /\ Rabs x < Rabs (IZR (Rtrunc x)) + 1.
Proof.
  destruct (Rlt_dec x 0) as [Hn | Hp].
  - destruct (Rtrunc_neg x Hn) as [H1 H2].
    assert (Hz : IZR (Rtrunc x) <= 0).
    { assert (Hlt : IZR (Rtrunc x) < 1) by lra.
      apply lt_IZR in Hlt. apply IZR_le. lia. }
    rewrite (Rabs_left x) by lra.
    destruct (Req_dec_T (IZR (Rtrunc x)) 0) as [E | NE].
    + rewrite E, Rabs_R0. lra.
    + rewrite (Rabs_left (IZR (Rtrunc x))) by lra. lra.
  - destruct (Rtrunc_nonneg x) as [H1 H2]; [lra |].
    assert (Hz : 0 <= IZR (Rtrunc x)).
    { assert (Hlt : -1 < IZR (Rtrunc x)) by lra.
      apply lt_IZR in Hlt. apply IZR_le. lia. }
    rewrite !Rabs_pos_eq by lra. lra.
Qed.

Lemma Rtrunc_unique_nonneg (x : R) (z : Z) :
  IZR z <= x < IZR z + 1 -> 0 <= x -> Rtrunc x = z.
Proof.
  intros [H1 H2] H0. destruct (Rtrunc_nonneg x H0) as [H3 H4].
  assert (A : IZR z < IZR (Rtrunc x) + 1) by lra.
  assert (B : IZR (Rtrunc x) < IZR z + 1) by lra.
  rewrite <- plus_IZR in A, B. apply lt_IZR in A, B. lia.
Qed.

Lemma Rtrunc_IZR (z : Z) : (0 <= z)%Z -> Rtrunc (IZR z) = z.
Proof.
  intro H. apply Rtrunc_unique_nonneg.
  - lra.
  - apply IZR_le in H. exact H.
Qed.

Lemma Rtrunc_mono_nonneg (x y : R) :
  0 <= x -> x <= y -> (Rtrunc x <= Rtrunc y)%Z.
Proof.
  intros H0 Hxy.
  destruct (Rtrunc_nonneg x H0) as [H1 H2].
  destruct (Rtrunc_nonneg y) as [H3 H4]; [lra |].
  assert (A : IZR (Rtrunc x) < IZR (Rtrunc y) + 1) by lra.
  rewrite <- plus_IZR in A. apply lt_IZR in A. lia.
Qed.

Lemma Rtrunc_range (x : R) (n : Z) :
  0 <= x <= IZR n -> (0 <= Rtrunc x <= n)%Z.
Proof.
  intros [H0 Hn]. destruct (Rtrunc_nonneg x H0) as [H1 H2].
  split.
  - assert (A : -1 < IZR (Rtrunc x)) by lra. apply lt_IZR in A. lia.
  - apply le_IZR. lra.
Qed.

Lemma static_cast_int_fin (x : R) :
  (INT_MIN <= Rtrunc x <= INT_MAX)%Z ->
  static_cast_int (Fin x) = Some (Rtrunc x).
Proof.
  intros [H1 H2]. unfold static_cast_int.
  apply Z.leb_le in H1, H2. rewrite H1, H2. reflexivity.
Qed.

End FloatFacts.

(* ================================================================= *)
(** ** The luminosity model on valid ADC codes                        *)
(* ================================================================= *)

Section Luminosity.

Local Open Scope R_scope.

Variable p : string.

Local Abbreviation udp := (ClienteUDP.SensorLDR_new p).
Local Abbreviation std := (Standalone.SensorLDR_new p).

Lemma ln_LIGHT_lt_DARK : ln Spec.R_LIGHT < ln Spec.R_DARK.
Proof.
  unfold Spec.R_LIGHT, Spec.R_DARK. apply ln_increasing; lra.
Qed.

Lemma raw_interior_IZR (raw : Z) :
  (0 < raw < Spec.ADC_max)%Z -> 0 < IZR raw < 4095.
Proof.
  unfold Spec.ADC_max. intros [H1 H2].
  apply IZR_lt in H1, H2. lra.
Qed.

Lemma R_sensor_pos (raw : Z) :
  (0 < raw < Spec.ADC_max)%Z -> 0 < Spec.R_sensor raw.
Proof.
  intro H. apply raw_interior_IZR in H.
  unfold Spec.R_sensor, Spec.R_fixed, Spec.ADC_max.
  apply Rdiv_lt_0_compat; nra.
Qed.

Lemma R_sensor_decreasing (raw1 raw2 : Z) :
  (0 < raw1)%Z -> (raw1 < raw2)%Z -> (raw2 < Spec.ADC_max)%Z ->
  Spec.R_sensor raw2 < Spec.R_sensor raw1.
Proof.
  intros H1 H12 H2.
  assert (A : 0 < IZR raw1 < 4095) by (apply raw_interior_IZR; lia).
  assert (B : 0 < IZR raw2 < 4095) by (apply raw_interior_IZR; lia).
  assert (C : IZR raw1 < IZR raw2) by (apply IZR_lt; exact H12).
  unfold Spec.R_sensor, Spec.R_fixed, Spec.ADC_max.
  apply (Rmult_lt_reg_r (IZR raw1 * IZR raw2)); [nra |].
  field_simplify; nra.
Qed.

Lemma udp_r_ldr_any (raw : Z) :
  raw <> 0%Z ->
  ClienteUDP.r_ldr_of udp raw = Fin (Spec.R_sensor raw).
Proof.
  intro H. unfold ClienteUDP.r_ldr_of, float_of_int. simpl fsub. simpl fmul.
  rewrite fdiv_fin.
  - unfold Spec.R_sensor, Spec.R_fixed, Spec.ADC_max. f_equal. lra.
  - intro E. apply eq_IZR in E. contradiction.
Qed.

Lemma std_r_ldr_any (raw : Z) :
  raw <> 0%Z ->
  Standalone.r_ldr_of std raw = Fin (Spec.R_sensor raw).
Proof.
  intro H. unfold Standalone.r_ldr_of, float_of_int. simpl fsub. simpl fmul.
  rewrite fdiv_fin.
  - unfold Spec.R_sensor, Spec.R_fixed, Spec.ADC_max. f_equal. lra.
  - intro E. apply eq_IZR in E. contradiction.
Qed.

Lemma flog_R_CLARO : flog (Fin (146 * 1e3)) = Fin (ln Spec.R_LIGHT).
Proof.
  rewrite flog_pos by lra. unfold Spec.R_LIGHT. do 2 f_equal. lra.
Qed.

Lemma flog_R_ESCURO : flog (Fin (5 * 1e6)) = Fin (ln Spec.R_DARK).
Proof.
  rewrite flog_pos by lra. unfold Spec.R_DARK. do 2 f_equal. lra.
Qed.

Lemma udp_ler_unfold (src : adc_source) :
  ClienteUDP.lerLuminosidadePercentual udp src =
  (decide_pct (flog (ClienteUDP.r_ldr_of udp (fst (ClienteUDP.lerValor udp src)))),
   snd (ClienteUDP.lerValor udp src)).
Proof.
  unfold ClienteUDP.lerLuminosidadePercentual.
  destruct (ClienteUDP.lerValor udp src) as [valor evs]. cbn [fst snd].
  change (ClienteUDP.R_CLARO udp) with (Fin (146 * 1e3)).
  change (ClienteUDP.R_ESCURO udp) with (Fin (5 * 1e6)).
  rewrite flog_R_CLARO, flog_R_ESCURO. unfold decide_pct.
  destruct (fgt _ _); [reflexivity |]. destruct (flt _ _); reflexivity.
Qed.

Lemma std_ler_unfold (raw : Z) :
  Standalone.lerLuminosidadePercentual std (Available raw) =
  decide_pct (flog (Standalone.r_ldr_of std raw)).
Proof.
  unfold Standalone.lerLuminosidadePercentual. cbn [Standalone.lerValor].
  change (Standalone.R_CLARO std) with (Fin (146 * 1e3)).
  change (Standalone.R_ESCURO std) with (Fin (5 * 1e6)).
  rewrite flog_R_CLARO, flog_R_ESCURO. reflexivity.
Qed.

Lemma decide_pct_pinf : decide_pct (Inf false) = Some 0%Z.
Proof. reflexivity. Qed.

Lemma decide_pct_ninf : decide_pct (Inf true) = Some 100%Z.
Proof. reflexivity. Qed.

Lemma decide_pct_nan : decide_pct NaN = None.
Proof. reflexivity. Qed.

Lemma percent_of_log_range (l : R) : (0 <= percent_of_log l <= 100)%Z.
Proof.
  unfold percent_of_log. pose proof ln_LIGHT_lt_DARK as Hd.
  destruct (Rlt_dec _ _) as [H1 | H1]; [lia |].
  destruct (Rlt_dec _ _) as [H2 | H2]; [lia |].
  apply Rtrunc_range. split.
  - apply Rmult_le_pos; [nra |]. apply Rlt_le, Rinv_0_lt_compat. lra.
  - apply (Rmult_le_reg_r (ln Spec.R_DARK - ln Spec.R_LIGHT)); [lra |].
    unfold Rdiv. rewrite Rmult_assoc, Rinv_l by lra. nra.
Qed.

Lemma decide_pct_fin (l : R) :
  decide_pct (Fin l) = Some (percent_of_log l).
Proof.
  pose proof (percent_of_log_range l) as Hr. revert Hr.
  unfold decide_pct, percent_of_log, fgt. cbn [flt fsub fmul]. unfold Rltb.
  pose proof ln_LIGHT_lt_DARK as Hd.
  destruct (Rlt_dec _ _) as [H1 | H1]; [reflexivity |].
  destruct (Rlt_dec _ _) as [H2 | H2]; [reflexivity |].
  intro Hr. rewrite fdiv_fin by lra.
  replace (100.0 * (ln Spec.R_DARK - l)) with (100 * (ln Spec.R_DARK - l)) by lra.
  apply static_cast_int_fin. unfold INT_MIN, INT_MAX. lia.
Qed.

Lemma percent_of_log_antitone (l1 l2 : R) :
  l1 <= l2 -> (percent_of_log l2 <= percent_of_log l1)%Z.
Proof.
  intro H. pose proof ln_LIGHT_lt_DARK as Hd.
  pose proof (percent_of_log_range l1) as R1.
  pose proof (percent_of_log_range l2) as R2.
  revert R1 R2. unfold percent_of_log.
  destruct (Rlt_dec (ln Spec.R_DARK) l2) as [A2 | A2]; [intros; lia |].
  destruct (Rlt_dec (ln Spec.R_DARK) l1) as [A1 | A1]; [lra |].
  destruct (Rlt_dec l1 (ln Spec.R_LIGHT)) as [B1 | B1]; [intros; destruct (Rlt_dec _ _); lia |].
  destruct (Rlt_dec l2 (ln Spec.R_LIGHT)) as [B2 | B2]; [lra |].
  intros _ _. apply Rtrunc_mono_nonneg.
  - apply Rmult_le_pos; [nra |]. apply Rlt_le, Rinv_0_lt_compat. lra.
  - unfold Rdiv. apply Rmult_le_compat_r; [apply Rlt_le, Rinv_0_lt_compat; lra | lra].
Qed.

Lemma percent_of_log_dark (l : R) :
  ln Spec.R_DARK <= l -> percent_of_log l = 0%Z.
Proof.
  intro H. pose proof ln_LIGHT_lt_DARK as Hd. unfold percent_of_log.
  destruct (Rlt_dec _ _) as [H1 | H1]; [reflexivity |].
  destruct (Rlt_dec _ _) as [H2 | H2]; [lra |].
  replace l with (ln Spec.R_DARK) by lra.
  replace (100 * (ln Spec.R_DARK - ln Spec.R_DARK) /
           (ln Spec.R_DARK - ln Spec.R_LIGHT)) with (IZR 0).
  - apply Rtrunc_IZR. lia.
  - unfold Rdiv. rewrite Rminus_diag. lra.
Qed.

Lemma percent_of_log_light (l : R) :
  l <= ln Spec.R_LIGHT -> percent_of_log l = 100%Z.
Proof.
  intro H. pose proof ln_LIGHT_lt_DARK as Hd. unfold percent_of_log.
  destruct (Rlt_dec _ _) as [H1 | H1]; [lra |].
  destruct (Rlt_dec _ _) as [H2 | H2]; [reflexivity |].
  replace l with (ln Spec.R_LIGHT) by lra.
  replace (100 * (ln Spec.R_DARK - ln Spec.R_LIGHT) /
           (ln Spec.R_DARK - ln Spec.R_LIGHT)) with (IZR 100).
  - apply Rtrunc_IZR. lia.
  - field. lra.
Qed.

Lemma decide_pct_ge_dark (L : fval) :
  fge L (Fin (ln Spec.R_DARK)) = true -> decide_pct L = Some 0%Z.
Proof.
  destruct L as [| [|] | l]; cbn [fge fle negb]; try discriminate.
  - intros _. reflexivity.
  - intro H. apply Rleb_iff in H.
    rewrite decide_pct_fin, percent_of_log_dark by exact H. reflexivity.
Qed.

Lemma decide_pct_le_light (L : fval) :
  fle L (Fin (ln Spec.R_LIGHT)) = true -> decide_pct L = Some 100%Z.
Proof.
  destruct L as [| [|] | l]; cbn [fle]; try discriminate.
  - intros _. reflexivity.
  - intro H. apply Rleb_iff in H.
    rewrite decide_pct_fin, percent_of_log_light by exact H. reflexivity.
Qed.

Lemma udp_ler_interior (raw : Z) :
  (0 < raw < Spec.ADC_max)%Z ->
  ClienteUDP.lerLuminosidadePercentual udp (Available raw) =
  (Some (percent_of_log (ln (Spec.R_sensor raw))), []).
Proof.
  intro H. rewrite udp_ler_unfold. cbn [ClienteUDP.lerValor fst snd].
  rewrite udp_r_ldr_any by lia.
  rewrite flog_pos by (apply R_sensor_pos; exact H).
  rewrite decide_pct_fin. reflexivity.
Qed.

Lemma std_ler_interior (raw : Z) :
  (0 < raw < Spec.ADC_max)%Z ->
  Standalone.lerLuminosidadePercentual std (Available raw) =
  Some (percent_of_log (ln (Spec.R_sensor raw))).
Proof.
  intro H. rewrite std_ler_unfold.
  rewrite std_r_ldr_any by lia.
  rewrite flog_pos by (apply R_sensor_pos; exact H).
  apply decide_pct_fin.
Qed.

Lemma udp_r_ldr_zero : ClienteUDP.r_ldr_of udp 0 = Inf false.
Proof.
  unfold ClienteUDP.r_ldr_of, float_of_int. simpl fsub. simpl fmul.
  apply fdiv_pos_zero. lra.
Qed.

Lemma std_r_ldr_zero : Standalone.r_ldr_of std 0 = Inf false.
Proof.
  unfold Standalone.r_ldr_of, float_of_int. simpl fsub. simpl fmul.
  apply fdiv_pos_zero. lra.
Qed.

Lemma R_sensor_max : Spec.R_sensor Spec.ADC_max = 0.
Proof. unfold Spec.R_sensor, Spec.R_fixed, Spec.ADC_max. lra. Qed.

Lemma udp_ler_zero :
  ClienteUDP.lerLuminosidadePercentual udp (Available 0) = (Some 0%Z, []).
Proof.
  rewrite udp_ler_unfold. cbn [ClienteUDP.lerValor fst snd].
  rewrite udp_r_ldr_zero. reflexivity.
Qed.

Lemma udp_ler_unavailable :
  ClienteUDP.lerLuminosidadePercentual udp Unavailable =
  (Some 0%Z,
   [EvCerr ("Erro: Nao foi possivel abrir o arquivo ADC em " ++ p)]).
Proof.
  rewrite udp_ler_unfold. cbn [ClienteUDP.lerValor fst snd].
  rewrite udp_r_ldr_zero. reflexivity.
Qed.

Lemma udp_ler_max :
  ClienteUDP.lerLuminosidadePercentual udp (Available Spec.ADC_max) =
  (Some 100%Z, []).
Proof.
  rewrite udp_ler_unfold. cbn [ClienteUDP.lerValor fst snd].
  rewrite udp_r_ldr_any by discriminate.
  rewrite R_sensor_max, flog_zero. reflexivity.
Qed.

Lemma udp_ler_valid (raw : Z) :
  (0 <= raw <= Spec.ADC_max)%Z ->
  exists v : Z,
    ClienteUDP.lerLuminosidadePercentual udp (Available raw) = (Some v, [])
    /\ (0 <= v <= 100)%Z.
Proof.
  intro H.
  destruct (Z.eq_dec raw 0) as [-> | N0].
  { exists 0%Z. split; [apply udp_ler_zero | lia]. }
  destruct (Z.eq_dec raw Spec.ADC_max) as [-> | NM].
  { exists 100%Z. split; [apply udp_ler_max | lia]. }
  eexists. split.
  - apply udp_ler_interior. lia.
  - apply percent_of_log_range.
Qed.

(** C2. For every raw ADC code strictly between 0 and [ADC_max], both
    variants of [lerLuminosidadePercentual] return an integer, the same
    one, and it lies in [0, 100]. *)
Theorem lerLuminosidadePercentual_in_range (raw : Z) :
  (0 < raw < Spec.ADC_max)%Z ->
  exists v : Z,
    ClienteUDP.lerLuminosidadePercentual udp (Available raw) = (Some v, [])
    /\ Standalone.lerLuminosidadePercentual std (Available raw) = Some v
    /\ (0 <= v <= 100)%Z.
Proof.
  intro H. exists (percent_of_log (ln (Spec.R_sensor raw))).
  split; [apply udp_ler_interior; exact H |].
  split; [apply std_ler_interior; exact H |].
  apply percent_of_log_range.
Qed.

(** C3. Clamping: when the logarithm of the computed resistance is at
    least that of [R_ESCURO] the result is exactly 0, and when it is at
    most that of [R_CLARO] the result is exactly 100, equality included,
    for every raw value and in both variants. *)
Theorem lerLuminosidadePercentual_clamps (raw : Z) :
  (fge (flog (ClienteUDP.r_ldr_of udp raw))
       (flog (ClienteUDP.R_ESCURO udp)) = true ->
   fst (ClienteUDP.lerLuminosidadePercentual udp (Available raw)) = Some 0%Z)
  /\
  (fle (flog (ClienteUDP.r_ldr_of udp raw))
       (flog (ClienteUDP.R_CLARO udp)) = true ->
   fst (ClienteUDP.lerLuminosidadePercentual udp (Available raw)) = Some 100%Z)
  /\
  (fge (flog (Standalone.r_ldr_of std raw))
       (flog (Standalone.R_ESCURO std)) = true ->
   Standalone.lerLuminosidadePercentual std (Available raw) = Some 0%Z)
  /\
  (fle (flog (Standalone.r_ldr_of std raw))
       (flog (Standalone.R_CLARO std)) = true ->
   Standalone.lerLuminosidadePercentual std (Available raw) = Some 100%Z).
Proof.
  change (ClienteUDP.R_CLARO udp) with (Fin (146 * 1e3)).
  change (ClienteUDP.R_ESCURO udp) with (Fin (5 * 1e6)).
  change (Standalone.R_CLARO std) with (Fin (146 * 1e3)).
  change (Standalone.R_ESCURO std) with (Fin (5 * 1e6)).
  rewrite flog_R_CLARO, flog_R_ESCURO.
  rewrite udp_ler_unfold, std_ler_unfold. cbn [ClienteUDP.lerValor fst snd].
  repeat split; intro H.
  - apply decide_pct_ge_dark; exact H.
  - apply decide_pct_le_light; exact H.
  - apply decide_pct_ge_dark; exact H.
  - apply decide_pct_le_light; exact H.
Qed.

(** C4. The two edge codes: [raw = 0] divides by zero, the resistance is
    plus infinity and the result is 0; [raw = ADC_max] gives resistance 0,
    logarithm minus infinity and the result 100.  Both variants return
    these defined values, neither negative nor undefined. *)
Theorem lerLuminosidadePercentual_edges :
  ClienteUDP.r_ldr_of udp 0 = Inf false
  /\ ClienteUDP.lerLuminosidadePercentual udp (Available 0) = (Some 0%Z, [])
  /\ Standalone.lerLuminosidadePercentual std (Available 0) = Some 0%Z
  /\ flog (ClienteUDP.r_ldr_of udp Spec.ADC_max) = Inf true
  /\ ClienteUDP.lerLuminosidadePercentual udp (Available Spec.ADC_max)
      = (Some 100%Z, [])
  /\ Standalone.lerLuminosidadePercentual std (Available Spec.ADC_max)
      = Some 100%Z.
Proof.
  split; [apply udp_r_ldr_zero |].
  split; [apply udp_ler_zero |].
  split.
  { rewrite std_ler_unfold, std_r_ldr_zero. reflexivity. }
  split.
  { rewrite udp_r_ldr_any by discriminate.
    rewrite R_sensor_max. apply flog_zero. }
  split; [apply udp_ler_max |].
  rewrite std_ler_unfold, std_r_ldr_any by discriminate.
  rewrite R_sensor_max, flog_zero. reflexivity.
Qed.

(** C5. Monotonicity on valid, non-edge codes: a larger raw code gives a
    strictly smaller resistance [r_ldr] and a percentage that is not
    smaller, in both variants. *)
Theorem lerLuminosidadePercentual_monotone (raw1 raw2 : Z) :
  (0 < raw1)%Z -> (raw1 < raw2)%Z -> (raw2 < Spec.ADC_max)%Z ->
  exists (r1 r2 : R) (v1 v2 : Z),
    Standalone.r_ldr_of std raw1 = Fin r1
    /\ Standalone.r_ldr_of std raw2 = Fin r2
    /\ ClienteUDP.r_ldr_of udp raw1 = Fin r1
    /\ ClienteUDP.r_ldr_of udp raw2 = Fin r2
    /\ r2 < r1
    /\ Standalone.lerLuminosidadePercentual std (Available raw1) = Some v1
    /\ Standalone.lerLuminosidadePercentual std (Available raw2) = Some v2
    /\ ClienteUDP.lerLuminosidadePercentual udp (Available raw1) = (Some v1, [])
    /\ ClienteUDP.lerLuminosidadePercentual udp (Available raw2) = (Some v2, [])
    /\ (v1 <= v2)%Z.
Proof.
  intros H1 H12 H2.
  exists (Spec.R_sensor raw1), (Spec.R_sensor raw2).
  exists (percent_of_log (ln (Spec.R_sensor raw1))).
  exists (percent_of_log (ln (Spec.R_sensor raw2))).
  pose proof (R_sensor_decreasing raw1 raw2 H1 H12 H2) as Hdec.
  assert (Hpos : 0 < Spec.R_sensor raw2) by (apply R_sensor_pos; lia).
  repeat split.
  - apply std_r_ldr_any; lia.
  - apply std_r_ldr_any; lia.
  - apply udp_r_ldr_any; lia.
  - apply udp_r_ldr_any; lia.
  - exact Hdec.
  - apply std_ler_interior; lia.
  - apply std_ler_interior; lia.
  - apply udp_ler_interior; lia.
  - apply udp_ler_interior; lia.
  - apply percent_of_log_antitone, Rlt_le, ln_increasing; assumption.
Qed.

(** C6. Algorithm: on a non-edge code whose resistance lies strictly
    between the two references, [r_ldr] is
    [R_fixed * (ADC_max - raw) / raw] and the result is
    [100 * (log R_DARK - log R_sensor) / (log R_DARK - log R_LIGHT)]
    truncated toward zero (here a non-negative value rounded down), in
    both variants. *)
Theorem lerLuminosidadePercentual_interpolates (raw : Z) :
  (0 < raw < Spec.ADC_max)%Z ->
  Spec.R_LIGHT < Spec.R_sensor raw < Spec.R_DARK ->
  ClienteUDP.r_ldr_of udp raw = Fin (Spec.R_sensor raw)
  /\ Standalone.r_ldr_of std raw = Fin (Spec.R_sensor raw)
  /\ ClienteUDP.lerLuminosidadePercentual udp (Available raw)
      = (Some (Spec.pct raw), [])
  /\ Standalone.lerLuminosidadePercentual std (Available raw)
      = Some (Spec.pct raw)
  /\ 0 <= IZR (Spec.pct raw) <= Spec.interpolation raw
  /\ Spec.interpolation raw < IZR (Spec.pct raw) + 1.
Proof.
  intros H [HL HD].
  assert (Hpos : 0 < Spec.R_sensor raw) by (apply R_sensor_pos; exact H).
  assert (HlL : ln Spec.R_LIGHT < ln (Spec.R_sensor raw)).
  { apply ln_increasing; [unfold Spec.R_LIGHT; lra | exact HL]. }
  assert (HlD : ln (Spec.R_sensor raw) < ln Spec.R_DARK).
  { apply ln_increasing; assumption. }
  assert (E : percent_of_log (ln (Spec.R_sensor raw)) = Spec.pct raw).
  { unfold percent_of_log, Spec.pct, Spec.interpolation.
    destruct (Rlt_dec _ _) as [A | A]; [lra |].
    destruct (Rlt_dec _ _) as [B | B]; [lra | reflexivity]. }
  assert (Hnn : 0 <= Spec.interpolation raw).
  { unfold Spec.interpolation. apply Rmult_le_pos; [nra |].
    apply Rlt_le, Rinv_0_lt_compat. lra. }
  destruct (Rtrunc_nonneg _ Hnn) as [T1 T2].
  pose proof (percent_of_log_range (ln (Spec.R_sensor raw))) as Hr.
  rewrite E in Hr.
  split; [apply udp_r_ldr_any; lia |].
  split; [apply std_r_ldr_any; lia |].
  split; [rewrite <- E; apply udp_ler_interior; exact H |].
  split; [rewrite <- E; apply std_ler_interior; exact H |].
  split; [split; [apply IZR_le; lia | exact T1] | exact T2].
Qed.

End Luminosity.


(* ================================================================= *)
(** ** Decimal rendering                                              *)
(* ================================================================= *)

Section Rendering.

Lemma all_digits_uint (d : Decimal.uint) :
  all_digits (NilEmpty.string_of_uint d) = true.
Proof. induction d; simpl; try rewrite IHd; reflexivity. Qed.

Lemma all_digits_to_string (v : Z) :
  (0 <= v)%Z -> all_digits (to_string v) = true.
Proof.
  intro H. unfold to_string. destruct v as [| q | q]; [reflexivity | | lia].
  cbn [Z.to_int NilZero.string_of_int]. unfold NilZero.string_of_uint.
  destruct (Pos.to_uint q) eqn:E; try apply all_digits_uint.
  reflexivity.
Qed.

Lemma of_string_to_string (v : Z) : of_string (to_string v) = Some v.
Proof.
  unfold of_string, to_string. rewrite NilZero.isi.
  - cbn [option_map]. rewrite DecimalZ.of_to. reflexivity.
  - destruct v; cbn [Z.to_int]; try discriminate.
    intro E. injection E as E. exact (Unsigned.to_uint_nonnil _ E).
  - destruct v; cbn [Z.to_int]; try discriminate.
    intro E. injection E as E. exact (Unsigned.to_uint_nonnil _ E).
Qed.

End Rendering.

(* ================================================================= *)
(** ** The telemetry loop of the UDP client                           *)
(* ================================================================= *)

Section Telemetry.

Local Open Scope Z_scope.

Lemma udp_lerValor_events (l : ClienteUDP.SensorLDR) (src : adc_source) :
  filter is_sendto (snd (ClienteUDP.lerValor l src)) = []
  /\ filter is_sleep (snd (ClienteUDP.lerValor l src)) = [].
Proof. destruct src; split; reflexivity. Qed.

Lemma udp_ler_events (l : ClienteUDP.SensorLDR) (src : adc_source) :
  snd (ClienteUDP.lerLuminosidadePercentual l src) =
  snd (ClienteUDP.lerValor l src).
Proof.
  unfold ClienteUDP.lerLuminosidadePercentual.
  destruct (ClienteUDP.lerValor l src) as [valor evs].
  destruct (fgt _ _); [reflexivity |]. destruct (flt _ _); reflexivity.
Qed.

(** The events of a turn, once the percentage is known. *)
Lemma cycle_events_of_ler
    (l : ClienteUDP.SensorLDR) (fd : Z) (e : ClienteUDP.cycle_env)
    (v : Z) (evs : list event) :
  ClienteUDP.lerLuminosidadePercentual l (ClienteUDP.adc e) = (Some v, evs) ->
  ClienteUDP.cycle_events l fd e =
  Some (evs ++ [EvSendto fd (to_string v) (String.length (to_string v))] ++
        if ClienteUDP.sendto_result e =? -1
        then [EvPerror "Erro ao enviar datagrama"]
        else [EvCout ("Datagrama enviado ("
                      ++ to_string (ClienteUDP.sendto_result e)
                      ++ " bytes) para " ++ ClienteUDP.SERVER_IP ++ ":"
                      ++ to_string ClienteUDP.PORT);
              EvCout ("Luminosidade: " ++ to_string v ++ "%");
              EvSleep 1]).
Proof.
  intro H. unfold ClienteUDP.cycle_events. rewrite H.
  destruct (ClienteUDP.sendto_result e =? -1); reflexivity.
Qed.

(** A turn whose [sendto] fails reports it and does not sleep. *)
Lemma failed_send_does_not_sleep
    (l : ClienteUDP.SensorLDR) (fd : Z) (src : adc_source)
    (v : Z) (evs : list event) :
  ClienteUDP.lerLuminosidadePercentual l src = (Some v, evs) ->
  exists trace,
    ClienteUDP.cycle_events l fd
      {| ClienteUDP.adc := src; ClienteUDP.sendto_result := -1 |} = Some trace
    /\ In (EvPerror "Erro ao enviar datagrama") trace
    /\ filter is_sleep trace = [].
Proof.
  intro H. eexists. split.
  - apply (cycle_events_of_ler l fd _ v evs). exact H.
  - cbn [ClienteUDP.sendto_result]. cbn [Z.eqb Pos.eqb].
    split.
    + apply in_or_app. right. right. left. reflexivity.
    + rewrite filter_app.
      pose proof (udp_ler_events l src) as E. rewrite H in E. cbn [snd] in E.
      rewrite E. rewrite (proj2 (udp_lerValor_events l src)). reflexivity.
Qed.

(** A turn whose [sendto] succeeds ends with the one-second sleep. *)
Lemma successful_send_sleeps
    (l : ClienteUDP.SensorLDR) (fd : Z) (e : ClienteUDP.cycle_env)
    (v : Z) (evs : list event) :
  ClienteUDP.lerLuminosidadePercentual l (ClienteUDP.adc e) = (Some v, evs) ->
  ClienteUDP.sendto_result e <> -1 ->
  exists trace,
    ClienteUDP.cycle_events l fd e = Some (trace ++ [EvSleep 1]).
Proof.
  intros H Hs. rewrite (cycle_events_of_ler l fd e v evs H).
  apply Z.eqb_neq in Hs. rewrite Hs.
  eexists. f_equal.
  rewrite app_assoc.
  change [?a; ?b; EvSleep 1] with ([a; b] ++ [EvSleep 1]).
  rewrite app_assoc. reflexivity.
Qed.

(** Every turn of the console variant ends with the one-second sleep. *)
Lemma standalone_cycle_sleeps
    (l : Standalone.SensorLDR) (src : adc_source) (trace : list event) :
  Standalone.cycle l src = Some trace ->
  exists pre, trace = pre ++ [EvSleep 1].
Proof.
  unfold Standalone.cycle.
  destruct (Standalone.lerLuminosidadePercentual l src) as [v |];
    [| discriminate].
  intro H. injection H as <-. eexists [_]. reflexivity.
Qed.

Lemma cycle_keeps_locals (st st' : ClienteUDP.state) (e : ClienteUDP.cycle_env) :
  ClienteUDP.cycle st e = Some st' ->
  ClienteUDP.ldr st' = ClienteUDP.ldr st
  /\ ClienteUDP.client_socket st' = ClienteUDP.client_socket st.
Proof.
  unfold ClienteUDP.cycle.
  destruct (ClienteUDP.cycle_events _ _ _); [| discriminate].
  intro H. injection H as <-. split; reflexivity.
Qed.

Lemma loop_keeps_locals (es : list ClienteUDP.cycle_env) :
  forall st st' : ClienteUDP.state,
  ClienteUDP.loop st es = Some st' ->
  ClienteUDP.ldr st' = ClienteUDP.ldr st
  /\ ClienteUDP.client_socket st' = ClienteUDP.client_socket st.
Proof.
  induction es as [| e rest IH]; intros st st' H; cbn [ClienteUDP.loop] in H.
  - injection H as <-. split; reflexivity.
  - destruct (ClienteUDP.cycle st e) as [st1 |] eqn:E; [| discriminate].
    destruct (cycle_keeps_locals _ _ _ E) as [A B].
    destruct (IH _ _ H) as [C D].
    split; congruence.
Qed.

Lemma loop_app (es1 es2 : list ClienteUDP.cycle_env) :
  forall st : ClienteUDP.state,
  ClienteUDP.loop st (es1 ++ es2) =
  match ClienteUDP.loop st es1 with
  | Some st' => ClienteUDP.loop st' es2
  | None => None
  end.
Proof.
  induction es1 as [| e rest IH]; intro st; cbn [ClienteUDP.loop app].
  - reflexivity.
  - destruct (ClienteUDP.cycle st e); [apply IH | reflexivity].
Qed.

Lemma udp_ler_valid_adc (p : string) (src : adc_source) :
  valid_adc src = true ->
  exists (v : Z) (evs : list event),
    ClienteUDP.lerLuminosidadePercentual (ClienteUDP.SensorLDR_new p) src
    = (Some v, evs)
    /\ 0 <= v <= 100.
Proof.
  destruct src as [| raw]; cbn [valid_adc]; intro H.
  - eexists 0, _. split; [apply udp_ler_unavailable | lia].
  - apply andb_prop in H. destruct H as [H1 H2].
    apply Z.leb_le in H1, H2.
    destruct (udp_ler_valid p raw) as [v [E R]]; [unfold Spec.ADC_max; lia |].
    exists v, []. split; assumption.
Qed.

Lemma filter_sendto_cycle
    (l : ClienteUDP.SensorLDR) (fd : Z) (e : ClienteUDP.cycle_env)
    (v : Z) (evs : list event) :
  ClienteUDP.lerLuminosidadePercentual l (ClienteUDP.adc e) = (Some v, evs) ->
  exists trace,
    ClienteUDP.cycle_events l fd e = Some trace
    /\ filter is_sendto trace =
       [EvSendto fd (to_string v) (String.length (to_string v))].
Proof.
  intro H. eexists. split; [apply (cycle_events_of_ler l fd e v evs H) |].
  rewrite !filter_app.
  pose proof (udp_ler_events l (ClienteUDP.adc e)) as E.
  rewrite H in E. cbn [snd] in E.
  rewrite E, (proj1 (udp_lerValor_events l (ClienteUDP.adc e))).
  destruct (ClienteUDP.sendto_result e =? -1); reflexivity.
Qed.

(** The loop is never left and never stuck: against any answers of the
    environment with valid ADC states, whatever [sendto] returns, every
    turn is executed and hands one datagram to [sendto]. *)
Lemma loop_never_stops (p : string) (es : list ClienteUDP.cycle_env) :
  forall st : ClienteUDP.state,
  ClienteUDP.ldr st = ClienteUDP.SensorLDR_new p ->
  Forall (fun e => valid_adc (ClienteUDP.adc e) = true) es ->
  exists st' : ClienteUDP.state,
    ClienteUDP.loop st es = Some st'
    /\ length (filter is_sendto (ClienteUDP.out st')) =
       (length (filter is_sendto (ClienteUDP.out st)) + length es)%nat.
Proof.
  induction es as [| e rest IH]; intros st Hl Hv; cbn [ClienteUDP.loop].
  - exists st. split; [reflexivity |]. cbn [length]. lia.
  - inversion Hv as [| ? ? He Hrest]; subst.
    destruct (udp_ler_valid_adc p _ He) as [v [evs [Hler _]]].
    destruct (filter_sendto_cycle _ (ClienteUDP.client_socket st) e v evs Hler)
      as [trace [Hc Hf]].
    unfold ClienteUDP.cycle. rewrite Hl, Hc.
    destruct (IH (ClienteUDP.emit st trace) Hl Hrest) as [st' [Hloop Hlen]].
    exists st'. split; [exact Hloop |].
    rewrite Hlen. cbn [ClienteUDP.emit ClienteUDP.out].
    rewrite filter_app, length_app, Hf. cbn [length]. lia.
Qed.

Lemma udp_ler_bright (p : string) (raw : Z) :
  0 < raw < Spec.ADC_max ->
  (Spec.R_sensor raw <= Spec.R_LIGHT)%R ->
  ClienteUDP.lerLuminosidadePercentual (ClienteUDP.SensorLDR_new p)
    (Available raw) = (Some 100, []).
Proof.
  intros H HL. rewrite udp_ler_interior by exact H.
  rewrite percent_of_log_light; [reflexivity |].
  pose proof (R_sensor_pos raw H) as Hpos.
  destruct HL as [HL | HL].
  - apply Rlt_le, ln_increasing; assumption.
  - rewrite HL. apply Rle_refl.
Qed.

Lemma udp_ler_2000 (p : string) :
  ClienteUDP.lerLuminosidadePercentual (ClienteUDP.SensorLDR_new p)
    (Available 2000) = (Some 100, []).
Proof.
  apply udp_ler_bright; [unfold Spec.ADC_max; lia |].
  unfold Spec.R_sensor, Spec.R_fixed, Spec.ADC_max, Spec.R_LIGHT. lra.
Qed.

(** C1. [main] of the UDP client run on two turns, the first with a
    failing [sendto] (it returns -1), the second with a successful one:
    the failure is reported with [perror] and the loop goes on, but the
    second datagram follows the report with no [sleep] between; only the
    successful turn sleeps one second. *)
Theorem main_failed_send_trace :
  ClienteUDP.main
    {| ClienteUDP.socket_result := 3; ClienteUDP.inet_pton_result := 1 |}
    [ {| ClienteUDP.adc := Available 2000; ClienteUDP.sendto_result := -1 |};
      {| ClienteUDP.adc := Available 2000; ClienteUDP.sendto_result := 3 |} ]
  = ClienteUDP.InLoop
      {| ClienteUDP.ldr := ClienteUDP.SensorLDR_new ADC_PATH;
         ClienteUDP.client_socket := 3;
         ClienteUDP.out :=
           [ EvCout "Socket UDP criado com sucesso.";
             EvSendto 3 "100" 3;
             EvPerror "Erro ao enviar datagrama";
             EvSendto 3 "100" 3;
             EvCout "Datagrama enviado (3 bytes) para 192.168.42.10:8080";
             EvCout "Luminosidade: 100%";
             EvSleep 1 ] |}.
Proof.
  unfold ClienteUDP.main.
  cbn [ClienteUDP.socket_result ClienteUDP.inet_pton_result Z.ltb Z.leb
       Z.compare ClienteUDP.loop].
  unfold ClienteUDP.cycle.
  cbn [ClienteUDP.ldr ClienteUDP.client_socket].
  rewrite (cycle_events_of_ler _ _
             {| ClienteUDP.adc := Available 2000;
                ClienteUDP.sendto_result := -1 |}
             100 [] (udp_ler_2000 ADC_PATH)).
  cbn [ClienteUDP.emit ClienteUDP.ldr ClienteUDP.client_socket].
  rewrite (cycle_events_of_ler _ _
             {| ClienteUDP.adc := Available 2000;
                ClienteUDP.sendto_result := 3 |}
             100 [] (udp_ler_2000 ADC_PATH)).
  reflexivity.
Qed.

(** C8. Payload: in every turn whose percentage [v] is defined, exactly
    one datagram is handed to [sendto]; its bytes are the decimal
    rendering of [v] and its length is the length of that rendering (no
    prefix, delimiter or terminating null: reading the bytes back gives
    [v], and for [v >= 0] every byte is a decimal digit). *)
Theorem cycle_payload_is_decimal
    (l : ClienteUDP.SensorLDR) (fd : Z) (e : ClienteUDP.cycle_env)
    (v : Z) (evs : list event) :
  ClienteUDP.lerLuminosidadePercentual l (ClienteUDP.adc e) = (Some v, evs) ->
  exists trace : list event,
    ClienteUDP.cycle_events l fd e = Some trace
    /\ filter is_sendto trace =
       [EvSendto fd (to_string v) (String.length (to_string v))]
    /\ of_string (to_string v) = Some v
    /\ (0 <= v -> all_digits (to_string v) = true).
Proof.
  intro H.
  destruct (filter_sendto_cycle l fd e v evs H) as [trace [Hc Hf]].
  exists trace. split; [exact Hc |]. split; [exact Hf |].
  split; [apply of_string_to_string | apply all_digits_to_string].
Qed.

(** C9. Calibration: [R_CLARO = 146000 < R_ESCURO = 5000000] in both
    variants; the denominator [log R_ESCURO - log R_CLARO] is a strictly
    positive finite number; no value of [log_r_ldr] takes both clamp
    branches; and whatever the loop of the UDP client has executed, its
    sensor object is the one built before the loop. *)
Theorem calibration_invariant (p : string) :
  let u := ClienteUDP.SensorLDR_new p in
  let c := Standalone.SensorLDR_new p in
  ClienteUDP.R_CLARO u = Fin 146000
  /\ ClienteUDP.R_ESCURO u = Fin 5000000
  /\ Standalone.R_CLARO c = Fin 146000
  /\ Standalone.R_ESCURO c = Fin 5000000
  /\ flt (ClienteUDP.R_CLARO u) (ClienteUDP.R_ESCURO u) = true
  /\ (exists d : R,
        fsub (flog (ClienteUDP.R_ESCURO u)) (flog (ClienteUDP.R_CLARO u))
        = Fin d /\ (0 < d)%R)
  /\ (forall log_r_ldr : fval,
        fgt log_r_ldr (flog (ClienteUDP.R_ESCURO u))
        && flt log_r_ldr (flog (ClienteUDP.R_CLARO u)) = false)
  /\ (forall (se : ClienteUDP.setup_env) (es : list ClienteUDP.cycle_env)
             (st : ClienteUDP.state),
        ClienteUDP.main se es = ClienteUDP.InLoop st ->
        ClienteUDP.ldr st = ClienteUDP.SensorLDR_new ADC_PATH).
Proof.
  intros u c.
  assert (EC : ClienteUDP.R_CLARO u = Fin 146000).
  { unfold u. cbn [ClienteUDP.SensorLDR_new ClienteUDP.R_CLARO].
    f_equal. lra. }
  assert (EE : ClienteUDP.R_ESCURO u = Fin 5000000).
  { unfold u. cbn [ClienteUDP.SensorLDR_new ClienteUDP.R_ESCURO].
    f_equal. lra. }
  split; [exact EC |]. split; [exact EE |].
  split.
  { unfold c. cbn [Standalone.SensorLDR_new Standalone.R_CLARO].
    f_equal. lra. }
  split.
  { unfold c. cbn [Standalone.SensorLDR_new Standalone.R_ESCURO].
    f_equal. lra. }
  rewrite EC, EE.
  assert (Hd : (ln 146000 < ln 5000000)%R) by (apply ln_increasing; lra).
  split; [cbn [flt]; apply Rltb_true; lra |].
  rewrite !flog_pos by lra.
  split.
  { exists (ln 5000000 - ln 146000)%R. split; [reflexivity | lra]. }
  split.
  { intros [| [|] | x]; unfold fgt; cbn [flt andb negb]; try reflexivity.
    unfold Rltb.
    destruct (Rlt_dec (ln 5000000) x); [| reflexivity].
    destruct (Rlt_dec x (ln 146000)); [lra | reflexivity]. }
  intros se es st. unfold ClienteUDP.main.
  destruct (ClienteUDP.socket_result se <? 0); [discriminate |].
  destruct (ClienteUDP.inet_pton_result se <=? 0); [discriminate |].
  destruct (ClienteUDP.loop _ es) as [st1 |] eqn:E; [| discriminate].
  intro H. injection H as <-.
  apply loop_keeps_locals in E. destruct E as [E _]. exact E.
Qed.

End Telemetry.

(* ================================================================= *)
(** ** Concrete readings                                              *)
(* ================================================================= *)

Section Readings.

Local Open Scope R_scope.

Lemma log_r_ldr_dark (p : string) (raw : Z) :
  (0 < raw < Spec.ADC_max)%Z -> Spec.R_DARK <= Spec.R_sensor raw ->
  fge (flog (ClienteUDP.r_ldr_of (ClienteUDP.SensorLDR_new p) raw))
      (flog (ClienteUDP.R_ESCURO (ClienteUDP.SensorLDR_new p))) = true.
Proof.
  intros H HD. rewrite udp_r_ldr_any by lia.
  rewrite flog_pos by (apply R_sensor_pos; exact H).
  change (ClienteUDP.R_ESCURO (ClienteUDP.SensorLDR_new p))
    with (Fin (5 * 1e6)).
  rewrite flog_R_ESCURO. unfold fge. cbn [fle]. apply Rleb_iff.
  destruct HD as [HD | HD].
  - apply Rlt_le, ln_increasing; [unfold Spec.R_DARK; lra | exact HD].
  - rewrite HD. apply Rle_refl.
Qed.

Lemma log_r_ldr_light (p : string) (raw : Z) :
  (0 < raw < Spec.ADC_max)%Z -> Spec.R_sensor raw <= Spec.R_LIGHT ->
  fle (flog (ClienteUDP.r_ldr_of (ClienteUDP.SensorLDR_new p) raw))
      (flog (ClienteUDP.R_CLARO (ClienteUDP.SensorLDR_new p))) = true.
Proof.
  intros H HL. rewrite udp_r_ldr_any by lia.
  pose proof (R_sensor_pos raw H) as Hpos.
  rewrite flog_pos by exact Hpos.
  change (ClienteUDP.R_CLARO (ClienteUDP.SensorLDR_new p))
    with (Fin (146 * 1e3)).
  rewrite flog_R_CLARO. cbn [fle]. apply Rleb_iff.
  destruct HL as [HL | HL].
  - apply Rlt_le, ln_increasing; assumption.
  - rewrite HL. apply Rle_refl.
Qed.

(** The smallest non-edge code is in the dark clamp. *)
Example udp_ler_1 (p : string) :
  ClienteUDP.lerLuminosidadePercentual (ClienteUDP.SensorLDR_new p)
    (Available 1) = (Some 0%Z, []).
Proof.
  rewrite udp_ler_interior by (unfold Spec.ADC_max; lia).
  rewrite percent_of_log_dark; [reflexivity |].
  apply Rlt_le, ln_increasing; unfold Spec.R_DARK; [lra |].
  unfold Spec.R_sensor, Spec.R_fixed, Spec.ADC_max. lra.
Qed.

(** The largest non-edge code is in the bright clamp. *)
Example udp_ler_4094 (p : string) :
  ClienteUDP.lerLuminosidadePercentual (ClienteUDP.SensorLDR_new p)
    (Available 4094) = (Some 100%Z, []).
Proof.
  apply udp_ler_bright; [unfold Spec.ADC_max; lia |].
  unfold Spec.R_sensor, Spec.R_fixed, Spec.ADC_max, Spec.R_LIGHT. lra.
Qed.

(** The console variant does not check the stream: with no file its
    sample is indeterminate and so is its result. *)
Example std_ler_unavailable (p : string) :
  Standalone.lerLuminosidadePercentual (Standalone.SensorLDR_new p)
    Unavailable = None.
Proof. reflexivity. Qed.

(** A reading outside the converter's range makes the resistance
    negative, its logarithm not-a-number and the final cast undefined. *)
Example udp_ler_negative (p : string) :
  ClienteUDP.lerLuminosidadePercentual (ClienteUDP.SensorLDR_new p)
    (Available (-1)) = (None, []).
Proof.
  rewrite udp_ler_unfold. cbn [ClienteUDP.lerValor fst snd].
  rewrite udp_r_ldr_any by discriminate.
  rewrite flog_neg; [reflexivity |].
  unfold Spec.R_sensor, Spec.R_fixed, Spec.ADC_max. lra.
Qed.

End Readings.

(* ================================================================= *)
(** ** Instances                                                      *)
(* ================================================================= *)

(** The range theorem at the two codes next to the edges. *)
Lemma lerLuminosidadePercentual_in_range_witness :
  (exists v : Z,
     ClienteUDP.lerLuminosidadePercentual
       (ClienteUDP.SensorLDR_new ADC_PATH) (Available 1) = (Some v, [])
     /\ Standalone.lerLuminosidadePercentual
          (Standalone.SensorLDR_new ADC_PATH) (Available 1) = Some v
     /\ (0 <= v <= 100)%Z)
  /\
  (exists v : Z,
     ClienteUDP.lerLuminosidadePercentual
       (ClienteUDP.SensorLDR_new ADC_PATH) (Available 4094) = (Some v, [])
     /\ Standalone.lerLuminosidadePercentual
          (Standalone.SensorLDR_new ADC_PATH) (Available 4094) = Some v
     /\ (0 <= v <= 100)%Z).
Proof.
  split.
  - apply (lerLuminosidadePercentual_in_range ADC_PATH 1).
    unfold Spec.ADC_max. lia.
  - apply (lerLuminosidadePercentual_in_range ADC_PATH 4094).
    unfold Spec.ADC_max. lia.
Defined.

(** The clamps at code 1 (darker than [R_ESCURO]) and at code 4094
    (brighter than [R_CLARO]). *)
Lemma lerLuminosidadePercentual_clamps_witness :
  fst (ClienteUDP.lerLuminosidadePercentual
         (ClienteUDP.SensorLDR_new ADC_PATH) (Available 1)) = Some 0%Z
  /\
  fst (ClienteUDP.lerLuminosidadePercentual
         (ClienteUDP.SensorLDR_new ADC_PATH) (Available 4094)) = Some 100%Z.
Proof.
  split.
  - apply (proj1 (lerLuminosidadePercentual_clamps ADC_PATH 1)).
    apply log_r_ldr_dark; [unfold Spec.ADC_max; lia |].
    unfold Spec.R_sensor, Spec.R_fixed, Spec.ADC_max, Spec.R_DARK. lra.
  - apply (proj1 (proj2 (lerLuminosidadePercentual_clamps ADC_PATH 4094))).
    apply log_r_ldr_light; [unfold Spec.ADC_max; lia |].
    unfold Spec.R_sensor, Spec.R_fixed, Spec.ADC_max, Spec.R_LIGHT. lra.
Defined.

(** Monotonicity between the codes 100 and 200. *)
Lemma lerLuminosidadePercentual_monotone_witness :
  exists (r1 r2 : R) (v1 v2 : Z),
    Standalone.r_ldr_of (Standalone.SensorLDR_new ADC_PATH) 100 = Fin r1
    /\ Standalone.r_ldr_of (Standalone.SensorLDR_new ADC_PATH) 200 = Fin r2
    /\ ClienteUDP.r_ldr_of (ClienteUDP.SensorLDR_new ADC_PATH) 100 = Fin r1
    /\ ClienteUDP.r_ldr_of (ClienteUDP.SensorLDR_new ADC_PATH) 200 = Fin r2
    /\ (r2 < r1)%R
    /\ Standalone.lerLuminosidadePercentual
         (Standalone.SensorLDR_new ADC_PATH) (Available 100) = Some v1
    /\ Standalone.lerLuminosidadePercentual
         (Standalone.SensorLDR_new ADC_PATH) (Available 200) = Some v2
    /\ ClienteUDP.lerLuminosidadePercentual
         (ClienteUDP.SensorLDR_new ADC_PATH) (Available 100) = (Some v1, [])
    /\ ClienteUDP.lerLuminosidadePercentual
         (ClienteUDP.SensorLDR_new ADC_PATH) (Available 200) = (Some v2, [])
    /\ (v1 <= v2)%Z.
Proof.
  apply (lerLuminosidadePercentual_monotone ADC_PATH 100 200);
    unfold Spec.ADC_max; lia.
Defined.

(** The interpolation at code 100, whose resistance is 399500 ohms. *)
Lemma lerLuminosidadePercentual_interpolates_witness :
  ClienteUDP.r_ldr_of (ClienteUDP.SensorLDR_new ADC_PATH) 100
    = Fin (Spec.R_sensor 100)
  /\ Standalone.r_ldr_of (Standalone.SensorLDR_new ADC_PATH) 100
     = Fin (Spec.R_sensor 100)
  /\ ClienteUDP.lerLuminosidadePercentual
       (ClienteUDP.SensorLDR_new ADC_PATH) (Available 100)
     = (Some (Spec.pct 100), [])
  /\ Standalone.lerLuminosidadePercentual
       (Standalone.SensorLDR_new ADC_PATH) (Available 100)
     = Some (Spec.pct 100)
  /\ (0 <= IZR (Spec.pct 100) <= Spec.interpolation 100)%R
  /\ (Spec.interpolation 100 < IZR (Spec.pct 100) + 1)%R.
Proof.
  apply (lerLuminosidadePercentual_interpolates ADC_PATH 100).
  - unfold Spec.ADC_max. lia.
  - unfold Spec.R_sensor, Spec.R_fixed, Spec.ADC_max, Spec.R_LIGHT,
      Spec.R_DARK. lra.
Defined.

(** The payload of a turn that reads code 2000. *)
Lemma cycle_payload_is_decimal_witness :
  exists trace : list event,
    ClienteUDP.cycle_events (ClienteUDP.SensorLDR_new ADC_PATH) 3
      {| ClienteUDP.adc := Available 2000; ClienteUDP.sendto_result := 3 |}
    = Some trace
    /\ filter is_sendto trace = [EvSendto 3 "100" 3]
    /\ of_string "100" = Some 100%Z
    /\ ((0 <= 100)%Z -> all_digits "100" = true).
Proof.
  exact (cycle_payload_is_decimal (ClienteUDP.SensorLDR_new ADC_PATH) 3
           {| ClienteUDP.adc := Available 2000;
              ClienteUDP.sendto_result := 3 |}
           100 [] (udp_ler_2000 ADC_PATH)).
Defined.


(* ================================================================= *)
(** ** Where the percentage saturates                                 *)
(* ================================================================= *)

Section Saturation.

Local Open Scope R_scope.

Variable p : string.

Local Abbreviation udp := (ClienteUDP.SensorLDR_new p).
Local Abbreviation std := (Standalone.SensorLDR_new p).

Lemma R_sensor_dark_codes (raw : Z) :
  (0 < raw <= 8)%Z -> Spec.R_DARK <= Spec.R_sensor raw.
Proof.
  intros [H1 H2]. apply IZR_lt in H1. apply IZR_le in H2.
  unfold Spec.R_sensor, Spec.R_fixed, Spec.ADC_max, Spec.R_DARK.
  apply (Rmult_le_reg_r (IZR raw)); [exact H1 |].
  unfold Rdiv. rewrite Rmult_assoc, Rinv_l by lra. lra.
Qed.

Lemma R_sensor_bright_codes (raw : Z) :
  (263 <= raw < Spec.ADC_max)%Z -> Spec.R_sensor raw <= Spec.R_LIGHT.
Proof.
  unfold Spec.ADC_max. intros [H1 H2]. apply IZR_le in H1. apply IZR_lt in H2.
  unfold Spec.R_sensor, Spec.R_fixed, Spec.ADC_max, Spec.R_LIGHT.
  apply (Rmult_le_reg_r (IZR raw)); [lra |].
  unfold Rdiv. rewrite Rmult_assoc, Rinv_l by lra. lra.
Qed.

Lemma R_sensor_mid_codes (raw : Z) :
  (9 <= raw <= 262)%Z ->
  Spec.R_LIGHT < Spec.R_sensor raw <= 4540000.
Proof.
  intros [H1 H2]. apply IZR_le in H1, H2.
  unfold Spec.R_sensor, Spec.R_fixed, Spec.ADC_max, Spec.R_LIGHT.
  split.
  - apply (Rmult_lt_reg_r (IZR raw)); [lra |].
    unfold Rdiv. rewrite Rmult_assoc, Rinv_l by lra. lra.
  - apply (Rmult_le_reg_r (IZR raw)); [lra |].
    unfold Rdiv. rewrite Rmult_assoc, Rinv_l by lra. lra.
Qed.

Lemma ln_quot (a b : R) : 0 < a -> 0 < b -> ln a - ln b = ln (a / b).
Proof.
  intros Ha Hb. unfold Rdiv.
  rewrite ln_mult by (try apply Rinv_0_lt_compat; assumption).
  rewrite ln_Rinv by assumption. lra.
Qed.

(** [ln (R_DARK / 4540000)] is worth at least a hundredth of the span
    between the two references: [(11/10)^40 > R_DARK / R_LIGHT]. *)
Lemma first_percent_step :
  ln Spec.R_DARK - ln Spec.R_LIGHT <= 100 * (ln Spec.R_DARK - ln 4540000).
Proof.
  unfold Spec.R_DARK, Spec.R_LIGHT.
  rewrite !ln_quot by lra.
  assert (A : ln (5000000 / 146000) <= ln ((11 / 10) ^ 40)).
  { apply Rlt_le, ln_increasing; [lra |]. simpl. lra. }
  rewrite ln_pow in A by lra.
  assert (B : ln (11 / 10) <= ln (5000000 / 4540000)).
  { apply Rlt_le, ln_increasing; lra. }
  assert (C : 0 < ln (11 / 10)).
  { rewrite <- ln_1. apply ln_increasing; lra. }
  change (INR 40) with (IZR (Z.of_nat 40)) in A || rewrite INR_IZR_INZ in A.
  simpl in A. lra.
Qed.

Lemma percent_of_log_below_100 (l : R) :
  ln Spec.R_LIGHT < l -> (percent_of_log l <= 99)%Z.
Proof.
  intro H. pose proof ln_LIGHT_lt_DARK as Hd. unfold percent_of_log.
  destruct (Rlt_dec _ _) as [H1 | H1]; [lia |].
  destruct (Rlt_dec _ _) as [H2 | H2]; [lra |].
  set (x := 100 * (ln Spec.R_DARK - l) / (ln Spec.R_DARK - ln Spec.R_LIGHT)).
  assert (Hx : 0 <= x < 100).
  { unfold x. split.
    - apply Rmult_le_pos; [nra |]. apply Rlt_le, Rinv_0_lt_compat. lra.
    - apply (Rmult_lt_reg_r (ln Spec.R_DARK - ln Spec.R_LIGHT)); [lra |].
      unfold Rdiv. rewrite Rmult_assoc, Rinv_l by lra. nra. }
  destruct (Rtrunc_nonneg x (proj1 Hx)) as [T1 T2].
  assert (T : IZR (Rtrunc x) < 100) by lra.
  apply lt_IZR in T. lia.
Qed.

Lemma percent_of_log_above_0 (l : R) :
  l <= ln 4540000 -> (1 <= percent_of_log l)%Z.
Proof.
  intro H. pose proof ln_LIGHT_lt_DARK as Hd.
  pose proof first_percent_step as Hs.
  assert (HD : ln 4540000 < ln Spec.R_DARK).
  { unfold Spec.R_DARK. apply ln_increasing; lra. }
  unfold percent_of_log.
  destruct (Rlt_dec _ _) as [H1 | H1]; [lra |].
  destruct (Rlt_dec _ _) as [H2 | H2]; [lia |].
  rewrite <- (Rtrunc_IZR 1) at 1 by lia.
  apply Rtrunc_mono_nonneg; [lra |].
  apply (Rmult_le_reg_r (ln Spec.R_DARK - ln Spec.R_LIGHT)); [lra |].
  unfold Rdiv. rewrite Rmult_assoc, Rinv_l by lra. lra.
Qed.

Lemma std_ler_zero :
  Standalone.lerLuminosidadePercentual std (Available 0) = Some 0%Z.
Proof. rewrite std_ler_unfold, std_r_ldr_zero. reflexivity. Qed.

Lemma std_ler_max :
  Standalone.lerLuminosidadePercentual std (Available Spec.ADC_max)
  = Some 100%Z.
Proof.
  rewrite std_ler_unfold, std_r_ldr_any by discriminate.
  rewrite R_sensor_max, flog_zero. reflexivity.
Qed.

(** The common value of the two variants on a valid code. *)
Lemma both_ler_valid (raw : Z) :
  (0 <= raw <= Spec.ADC_max)%Z ->
  exists v : Z,
    ClienteUDP.lerLuminosidadePercentual udp (Available raw) = (Some v, [])
    /\ Standalone.lerLuminosidadePercentual std (Available raw) = Some v
    /\ (raw = 0%Z -> v = 0%Z)
    /\ (raw = Spec.ADC_max -> v = 100%Z)
    /\ ((0 < raw < Spec.ADC_max)%Z ->
        v = percent_of_log (ln (Spec.R_sensor raw))).
Proof.
  intro H.
  destruct (Z.eq_dec raw 0) as [-> | N0].
  { exists 0%Z. split; [apply udp_ler_zero |]. split; [apply std_ler_zero |].
    split; [reflexivity |]. split; [discriminate | intros; lia]. }
  destruct (Z.eq_dec raw Spec.ADC_max) as [-> | NM].
  { exists 100%Z. split; [apply udp_ler_max |]. split; [apply std_ler_max |].
    split; [discriminate |]. split; [reflexivity | intros; lia]. }
  exists (percent_of_log (ln (Spec.R_sensor raw))).
  split; [apply udp_ler_interior; lia |].
  split; [apply std_ler_interior; lia |].
  split; [intros; lia |]. split; [intros; lia | reflexivity].
Qed.

Lemma percent_of_code_cases (raw : Z) :
  (0 < raw < Spec.ADC_max)%Z ->
  ((raw <= 8)%Z /\ percent_of_log (ln (Spec.R_sensor raw)) = 0%Z)
  \/ ((9 <= raw <= 262)%Z
      /\ (1 <= percent_of_log (ln (Spec.R_sensor raw)) <= 99)%Z)
  \/ ((263 <= raw)%Z /\ percent_of_log (ln (Spec.R_sensor raw)) = 100%Z).
Proof.
  intro H. pose proof (R_sensor_pos raw H) as Hpos.
  destruct (Z_le_gt_dec raw 8) as [H8 | H8].
  { left. split; [exact H8 |]. apply percent_of_log_dark.
    destruct (R_sensor_dark_codes raw) as [Hlt | Heq]; [lia | |].
    - apply Rlt_le, ln_increasing; [unfold Spec.R_DARK; lra | exact Hlt].
    - rewrite Heq. apply Rle_refl. }
  destruct (Z_le_gt_dec 263 raw) as [H263 | H263].
  { right. right. split; [exact H263 |]. apply percent_of_log_light.
    destruct (R_sensor_bright_codes raw) as [Hlt | Heq]; [lia | |].
    - apply Rlt_le, ln_increasing; assumption.
    - rewrite Heq. apply Rle_refl. }
  right. left. split; [lia |].
  destruct (R_sensor_mid_codes raw) as [HL HU]; [lia |].
  split.
  - apply percent_of_log_above_0. destruct HU as [HU | HU].
    + apply Rlt_le, ln_increasing; assumption.
    + rewrite HU. apply Rle_refl.
  - apply percent_of_log_below_100.
    apply ln_increasing; [unfold Spec.R_LIGHT; lra | exact HL].
Qed.

(** X6. On the codes of the converter the result is 0 exactly for the
    codes up to 8 and 100 exactly for the codes from 263 on, in both
    variants. *)
Theorem saturation_thresholds (raw : Z) :
  (0 <= raw <= Spec.ADC_max)%Z ->
  exists v : Z,
    ClienteUDP.lerLuminosidadePercentual udp (Available raw) = (Some v, [])
    /\ Standalone.lerLuminosidadePercentual std (Available raw) = Some v
    /\ (v = 0 <-> raw <= 8)%Z
    /\ (v = 100 <-> 263 <= raw)%Z.
Proof.
  intro H. destruct (both_ler_valid raw H) as [v [Hu [Hs [H0 [HM HI]]]]].
  exists v. split; [exact Hu |]. split; [exact Hs |].
  destruct (Z.eq_dec raw 0) as [E0 | N0].
  { rewrite (H0 E0), E0. split; split; intro; lia. }
  destruct (Z.eq_dec raw Spec.ADC_max) as [EM | NM].
  { rewrite (HM EM), EM. unfold Spec.ADC_max. split; split; intro; lia. }
  assert (Hin : (0 < raw < Spec.ADC_max)%Z) by lia.
  rewrite (HI Hin).
  destruct (percent_of_code_cases raw Hin) as [[A B] | [[A B] | [A B]]];
    split; split; intro; lia.
Qed.

(** X7. Over the whole range of the converter, edges included, a larger
    code never gives a smaller percentage, in both variants. *)
Theorem lerLuminosidadePercentual_monotone_closed (raw1 raw2 : Z) :
  (0 <= raw1)%Z -> (raw1 <= raw2)%Z -> (raw2 <= Spec.ADC_max)%Z ->
  exists v1 v2 : Z,
    ClienteUDP.lerLuminosidadePercentual udp (Available raw1) = (Some v1, [])
    /\ ClienteUDP.lerLuminosidadePercentual udp (Available raw2) = (Some v2, [])
    /\ Standalone.lerLuminosidadePercentual std (Available raw1) = Some v1
    /\ Standalone.lerLuminosidadePercentual std (Available raw2) = Some v2
    /\ (v1 <= v2)%Z.
Proof.
  intros H1 H12 H2.
  destruct (both_ler_valid raw1) as [v1 [Hu1 [Hs1 [Z1 [M1 I1]]]]]; [lia |].
  destruct (both_ler_valid raw2) as [v2 [Hu2 [Hs2 [Z2 [M2 I2]]]]]; [lia |].
  exists v1, v2. repeat (split; [assumption |]).
  assert (R1 : (0 <= v1 <= 100)%Z).
  { destruct (udp_ler_valid p raw1) as [w [E R]]; [lia |].
    rewrite Hu1 in E. injection E as <-. exact R. }
  assert (R2 : (0 <= v2 <= 100)%Z).
  { destruct (udp_ler_valid p raw2) as [w [E R]]; [lia |].
    rewrite Hu2 in E. injection E as <-. exact R. }
  destruct (Z.eq_dec raw1 0) as [E0 | N0]; [rewrite (Z1 E0); lia |].
  destruct (Z.eq_dec raw2 Spec.ADC_max) as [EM | NM]; [rewrite (M2 EM); lia |].
  rewrite I1, I2 by lia.
  destruct (Z.eq_dec raw1 raw2) as [-> | NE]; [lia |].
  apply percent_of_log_antitone, Rlt_le, ln_increasing.
  - apply R_sensor_pos. lia.
  - apply R_sensor_decreasing; lia.
Qed.

Lemma R_sensor_outside (raw : Z) :
  (raw < 0 \/ Spec.ADC_max < raw)%Z -> Spec.R_sensor raw < 0.
Proof.
  unfold Spec.R_sensor, Spec.R_fixed, Spec.ADC_max. intros [H | H].
  - apply IZR_lt in H.
    replace (10000 * (4095 - IZR raw) / IZR raw)
      with (- (10000 * (4095 - IZR raw) / - IZR raw)) by (field; lra).
    apply Ropp_lt_gt_0_contravar, Rdiv_lt_0_compat; lra.
  - apply IZR_lt in H.
    replace (10000 * (4095 - IZR raw) / IZR raw)
      with (- (10000 * (IZR raw - 4095) / IZR raw)) by (field; lra).
    apply Ropp_lt_gt_0_contravar, Rdiv_lt_0_compat; lra.
Qed.

Lemma udp_ler_outside (raw : Z) :
  (raw < 0 \/ Spec.ADC_max < raw)%Z ->
  ClienteUDP.lerLuminosidadePercentual udp (Available raw) = (None, []).
Proof.
  intro O. pose proof (R_sensor_outside raw O) as Hr.
  rewrite udp_ler_unfold. cbn [ClienteUDP.lerValor fst snd].
  rewrite udp_r_ldr_any by (unfold Spec.ADC_max in O; lia).
  rewrite flog_neg by exact Hr. reflexivity.
Qed.

Lemma std_ler_outside (raw : Z) :
  (raw < 0 \/ Spec.ADC_max < raw)%Z ->
  Standalone.lerLuminosidadePercentual std (Available raw) = None.
Proof.
  intro O. pose proof (R_sensor_outside raw O) as Hr.
  rewrite std_ler_unfold, std_r_ldr_any by (unfold Spec.ADC_max in O; lia).
  rewrite flog_neg by exact Hr. reflexivity.
Qed.

(** X8. The result is undefined exactly on the readings outside the
    range of the converter: there the resistance is negative, its
    logarithm is not a number, both clamp tests fail and the cast to
    [int] is applied to not-a-number. *)
Theorem lerLuminosidadePercentual_undefined_iff (raw : Z) :
  (ClienteUDP.lerLuminosidadePercentual udp (Available raw) = (None, [])
   <-> (raw < 0 \/ Spec.ADC_max < raw)%Z)
  /\
  (Standalone.lerLuminosidadePercentual std (Available raw) = None
   <-> (raw < 0 \/ Spec.ADC_max < raw)%Z).
Proof.
  destruct (Z_lt_ge_dec raw 0) as [Hn | Hn].
  { assert (O : (raw < 0 \/ Spec.ADC_max < raw)%Z) by (left; exact Hn).
    split; split; intro; try exact O.
    - apply udp_ler_outside; exact O.
    - apply std_ler_outside; exact O. }
  destruct (Z_lt_ge_dec Spec.ADC_max raw) as [Hx | Hx].
  { assert (O : (raw < 0 \/ Spec.ADC_max < raw)%Z) by (right; exact Hx).
    split; split; intro; try exact O.
    - apply udp_ler_outside; exact O.
    - apply std_ler_outside; exact O. }
  destruct (both_ler_valid raw) as [v [Hu [Hs _]]]; [lia |].
  rewrite Hu, Hs. split; split; intro H; try discriminate; lia.
Qed.

End Saturation.

(** The thresholds at the last dark code. *)
Lemma saturation_thresholds_witness :
  exists v : Z,
    ClienteUDP.lerLuminosidadePercentual
      (ClienteUDP.SensorLDR_new ADC_PATH) (Available 8) = (Some v, [])
    /\ Standalone.lerLuminosidadePercentual
         (Standalone.SensorLDR_new ADC_PATH) (Available 8) = Some v
    /\ (v = 0 <-> 8 <= 8)%Z
    /\ (v = 100 <-> 263 <= 8)%Z.
Proof.
  apply (saturation_thresholds ADC_PATH 8). unfold Spec.ADC_max. lia.
Defined.

(** Monotonicity from the lower edge to the upper edge. *)
Lemma lerLuminosidadePercentual_monotone_closed_witness :
  exists v1 v2 : Z,
    ClienteUDP.lerLuminosidadePercentual
      (ClienteUDP.SensorLDR_new ADC_PATH) (Available 0) = (Some v1, [])
    /\ ClienteUDP.lerLuminosidadePercentual
         (ClienteUDP.SensorLDR_new ADC_PATH) (Available 4095) = (Some v2, [])
    /\ Standalone.lerLuminosidadePercentual
         (Standalone.SensorLDR_new ADC_PATH) (Available 0) = Some v1
    /\ Standalone.lerLuminosidadePercentual
         (Standalone.SensorLDR_new ADC_PATH) (Available 4095) = Some v2
    /\ (v1 <= v2)%Z.
Proof.
  apply (lerLuminosidadePercentual_monotone_closed ADC_PATH 0 4095);
    unfold Spec.ADC_max; lia.
Defined.



(* ================================================================= *)
(** ** Traces of the two loops                                        *)
(* ================================================================= *)

Section LoopTraces.

Local Open Scope Z_scope.

Lemma emit_nil (st : ClienteUDP.state) : ClienteUDP.emit st [] = st.
Proof. destruct st. unfold ClienteUDP.emit. cbn. rewrite app_nil_r. reflexivity. Qed.

Lemma emit_app (st : ClienteUDP.state) (t1 t2 : list event) :
  ClienteUDP.emit (ClienteUDP.emit st t1) t2 = ClienteUDP.emit st (t1 ++ t2).
Proof. unfold ClienteUDP.emit. cbn. rewrite app_assoc. reflexivity. Qed.

(** What a defined turn consists of. *)
Lemma turn_shape
    (l : ClienteUDP.SensorLDR) (fd : Z) (e : ClienteUDP.cycle_env)
    (t : list event) :
  ClienteUDP.cycle_events l fd e = Some t ->
  exists v : Z,
    fst (ClienteUDP.lerLuminosidadePercentual l (ClienteUDP.adc e)) = Some v
    /\ t = snd (ClienteUDP.lerValor l (ClienteUDP.adc e)) ++
           [EvSendto fd (to_string v) (String.length (to_string v))] ++
           if ClienteUDP.sendto_result e =? -1
           then [EvPerror "Erro ao enviar datagrama"]
           else [EvCout ("Datagrama enviado ("
                         ++ to_string (ClienteUDP.sendto_result e)
                         ++ " bytes) para " ++ ClienteUDP.SERVER_IP ++ ":"
                         ++ to_string ClienteUDP.PORT);
                 EvCout ("Luminosidade: " ++ to_string v ++ "%");
                 EvSleep 1].
Proof.
  intro H.
  destruct (ClienteUDP.lerLuminosidadePercentual l (ClienteUDP.adc e))
    as [[v |] evs] eqn:E.
  - rewrite (cycle_events_of_ler l fd e v evs E) in H. injection H as <-.
    exists v. split; [reflexivity |].
    pose proof (udp_ler_events l (ClienteUDP.adc e)) as Ev.
    rewrite E in Ev. cbn [snd] in Ev. rewrite Ev. reflexivity.
  - unfold ClienteUDP.cycle_events in H. rewrite E in H. discriminate.
Qed.

(** What can be observed of a defined turn. *)
Lemma turn_observations
    (l : ClienteUDP.SensorLDR) (fd : Z) (e : ClienteUDP.cycle_env)
    (t : list event) :
  ClienteUDP.cycle_events l fd e = Some t ->
  length (filter is_sendto t) = 1%nat
  /\ length (filter is_sleep t) = (if send_ok e then 1 else 0)%nat
  /\ length (filter is_perror t) = (if send_ok e then 0 else 1)%nat
  /\ filter is_close t = []
  /\ Forall (sent_on fd) t.
Proof.
  intro H. destruct (turn_shape l fd e t H) as [v [_ ->]].
  unfold send_ok.
  destruct (ClienteUDP.adc e); destruct (ClienteUDP.sendto_result e =? -1);
    cbn; repeat split; repeat constructor.
Qed.

Lemma loop_cons (st : ClienteUDP.state) (e : ClienteUDP.cycle_env)
    (rest : list ClienteUDP.cycle_env) :
  ClienteUDP.loop st (e :: rest) =
  match ClienteUDP.cycle_events (ClienteUDP.ldr st)
          (ClienteUDP.client_socket st) e with
  | Some t => ClienteUDP.loop (ClienteUDP.emit st t) rest
  | None => None
  end.
Proof.
  cbn [ClienteUDP.loop]. unfold ClienteUDP.cycle.
  destruct (ClienteUDP.cycle_events _ _ e); reflexivity.
Qed.

(** X5. The loop keeps nothing from one turn to the next: the state it
    reaches is the initial one extended by the concatenation of the
    traces of its turns, each trace being what [cycle_events] gives for
    that turn's answers with the sensor and socket of the initial
    state; and conversely. *)
Theorem loop_trace_is_concat (es : list ClienteUDP.cycle_env) :
  forall st st' : ClienteUDP.state,
  ClienteUDP.loop st es = Some st' <->
  exists traces : list (list event),
    Forall2 (fun e t =>
               ClienteUDP.cycle_events (ClienteUDP.ldr st)
                 (ClienteUDP.client_socket st) e = Some t) es traces
    /\ st' = ClienteUDP.emit st (concat traces).
Proof.
  induction es as [| e rest IH]; intros st st'.
  - cbn [ClienteUDP.loop]. split.
    + intro H. injection H as <-. exists []. split; [constructor |].
      cbn [concat]. symmetry. apply emit_nil.
    + intros [traces [HF ->]]. inversion HF; subst. cbn [concat].
      rewrite emit_nil. reflexivity.
  - rewrite loop_cons. split.
    + destruct (ClienteUDP.cycle_events _ _ e) as [t |] eqn:E; [| discriminate].
      intro H. apply IH in H. destruct H as [traces [HF ->]].
      exists (t :: traces). split.
      * constructor; [exact E | exact HF].
      * cbn [concat]. apply emit_app.
    + intros [traces [HF ->]]. inversion HF as [| ? t ? traces' E HF']; subst.
      rewrite E. apply IH. exists traces'. split; [exact HF' |].
      cbn [concat]. symmetry. apply emit_app.
Qed.

Lemma loop_observations (es : list ClienteUDP.cycle_env) :
  forall st st' : ClienteUDP.state,
  ClienteUDP.loop st es = Some st' ->
  length (filter is_sendto (ClienteUDP.out st')) =
    (length (filter is_sendto (ClienteUDP.out st)) + length es)%nat
  /\ length (filter is_sleep (ClienteUDP.out st')) =
     (length (filter is_sleep (ClienteUDP.out st))
      + length (filter send_ok es))%nat
  /\ (length (filter is_perror (ClienteUDP.out st'))
      + length (filter send_ok es))%nat =
     (length (filter is_perror (ClienteUDP.out st)) + length es)%nat
  /\ filter is_close (ClienteUDP.out st') =
     filter is_close (ClienteUDP.out st)
  /\ (Forall (sent_on (ClienteUDP.client_socket st)) (ClienteUDP.out st) ->
      Forall (sent_on (ClienteUDP.client_socket st)) (ClienteUDP.out st'))
  /\ ClienteUDP.client_socket st' = ClienteUDP.client_socket st.
Proof.
  induction es as [| e rest IH]; intros st st' H.
  - cbn [ClienteUDP.loop] in H. injection H as <-. cbn [filter length].
    repeat split; try lia. intro F; exact F.
  - rewrite loop_cons in H.
    destruct (ClienteUDP.cycle_events _ _ e) as [t |] eqn:E; [| discriminate].
    destruct (turn_observations _ _ _ _ E) as [T1 [T2 [T3 [T4 T5]]]].
    destruct (IH _ _ H) as [I1 [I2 [I3 [I4 [I5 I6]]]]].
    cbn [ClienteUDP.emit ClienteUDP.out ClienteUDP.client_socket] in *.
    rewrite !filter_app, !length_app in *.
    rewrite T4, app_nil_r in I4.
    cbn [filter length]. destruct (send_ok e); cbn [length];
      repeat split; try lia; try assumption;
      intro F; apply I5, Forall_app; split; assumption.
Qed.

(** The turns the default sensor can execute. *)
Lemma turn_defined_iff (p : string) (fd : Z) (e : ClienteUDP.cycle_env) :
  (exists t, ClienteUDP.cycle_events (ClienteUDP.SensorLDR_new p) fd e = Some t)
  <-> valid_adc (ClienteUDP.adc e) = true.
Proof.
  split.
  - intros [t H]. destruct (turn_shape _ _ _ _ H) as [v [Hv _]].
    destruct (ClienteUDP.adc e) as [| raw]; [reflexivity |].
    cbn [valid_adc]. apply andb_true_intro.
    destruct (Z_lt_ge_dec raw 0) as [A | A].
    { rewrite udp_ler_outside in Hv by (left; exact A). discriminate. }
    destruct (Z_lt_ge_dec 4095 raw) as [B | B].
    { rewrite udp_ler_outside in Hv by (right; exact B). discriminate. }
    split; apply Z.leb_le; lia.
  - intro H. destruct (udp_ler_valid_adc p _ H) as [v [evs [Hler _]]].
    eexists. apply (cycle_events_of_ler _ fd e v evs Hler).
Qed.

Lemma loop_defined_iff (p : string) (es : list ClienteUDP.cycle_env) :
  forall st : ClienteUDP.state,
  ClienteUDP.ldr st = ClienteUDP.SensorLDR_new p ->
  (exists st', ClienteUDP.loop st es = Some st')
  <-> Forall (fun e => valid_adc (ClienteUDP.adc e) = true) es.
Proof.
  induction es as [| e rest IH]; intros st Hl.
  - split; [intros _; constructor | intros _; exists st; reflexivity].
  - rewrite loop_cons, Hl. split.
    + intros [st' H].
      destruct (ClienteUDP.cycle_events _ _ e) as [t |] eqn:E; [| discriminate].
      constructor.
      * apply (turn_defined_iff p (ClienteUDP.client_socket st)).
        exists t. exact E.
      * apply (IH (ClienteUDP.emit st t) Hl). exists st'. exact H.
    + intro F. inversion F as [| ? ? He Hrest]; subst.
      apply (turn_defined_iff p (ClienteUDP.client_socket st)) in He.
      destruct He as [t E]. rewrite E.
      apply (IH (ClienteUDP.emit st t) Hl). exact Hrest.
Qed.

(** X1. [main] of the UDP client returns only from its setup: it returns
    exactly when [socket] gives a negative descriptor or [inet_pton] a
    non-positive result; the code is then -1, nothing was sent, and the
    socket is closed exactly when it had been created. *)
Theorem main_returns_only_from_setup
    (se : ClienteUDP.setup_env) (es : list ClienteUDP.cycle_env) :
  ((exists code trace, ClienteUDP.main se es = ClienteUDP.Returned code trace)
   <-> (ClienteUDP.socket_result se < 0
        \/ ClienteUDP.inet_pton_result se <= 0))
  /\
  (forall code trace,
     ClienteUDP.main se es = ClienteUDP.Returned code trace ->
     code = -1
     /\ filter is_sendto trace = []
     /\ filter is_perror trace <> []
     /\ filter is_close trace =
        if ClienteUDP.socket_result se <? 0 then []
        else [EvClose (ClienteUDP.socket_result se)]).
Proof.
  unfold ClienteUDP.main.
  destruct (ClienteUDP.socket_result se <? 0) eqn:S.
  { apply Z.ltb_lt in S. split.
    - split; [intros _; left; exact S | intros _; eexists _, _; reflexivity].
    - intros code trace H. injection H as <- <-. cbn.
      repeat split; discriminate. }
  apply Z.ltb_ge in S.
  destruct (ClienteUDP.inet_pton_result se <=? 0) eqn:I.
  { apply Z.leb_le in I. split.
    - split; [intros _; right; exact I | intros _; eexists _, _; reflexivity].
    - intros code trace H. injection H as <- <-. cbn.
      repeat split; discriminate. }
  apply Z.leb_gt in I.
  destruct (ClienteUDP.loop _ es); split;
    try (split; [intros [code [trace H]]; discriminate | intros [H | H]; lia]);
    intros code trace H; discriminate.
Qed.

(** X2. Once the setup has succeeded, [main] is still in its loop after
    any number of turns exactly when every turn found the ADC file
    missing or holding a code in 0..4095, whatever [sendto] returned;
    otherwise its behaviour is undefined. *)
Theorem main_stays_in_loop
    (se : ClienteUDP.setup_env) (es : list ClienteUDP.cycle_env) :
  0 <= ClienteUDP.socket_result se ->
  0 < ClienteUDP.inet_pton_result se ->
  ((exists st, ClienteUDP.main se es = ClienteUDP.InLoop st)
   <-> Forall (fun e => valid_adc (ClienteUDP.adc e) = true) es)
  /\
  (ClienteUDP.main se es = ClienteUDP.Undefined
   <-> Exists (fun e => valid_adc (ClienteUDP.adc e) = false) es).
Proof.
  intros S I. unfold ClienteUDP.main.
  apply Z.ltb_ge in S. apply Z.leb_gt in I. rewrite S, I.
  set (st0 := {| ClienteUDP.ldr := ClienteUDP.SensorLDR_new ADC_PATH;
                 ClienteUDP.client_socket := ClienteUDP.socket_result se;
                 ClienteUDP.out := [EvCout "Socket UDP criado com sucesso."] |}).
  pose proof (loop_defined_iff ADC_PATH es st0 eq_refl) as D.
  assert (X : Exists (fun e => valid_adc (ClienteUDP.adc e) = false) es
              <-> ~ Forall (fun e => valid_adc (ClienteUDP.adc e) = true) es).
  { rewrite <- Exists_Forall_neg.
    - split; apply Exists_impl; intros e H;
        destruct (valid_adc (ClienteUDP.adc e)); congruence.
    - intro e. destruct (valid_adc (ClienteUDP.adc e)); [left | right]; congruence. }
  destruct (ClienteUDP.loop st0 es) as [st |] eqn:L.
  - assert (F : Forall (fun e => valid_adc (ClienteUDP.adc e) = true) es).
    { apply D. exists st. reflexivity. }
    split.
    + split; [intros _; exact F | intros _; exists st; reflexivity].
    + split; [discriminate |]. intro H. apply X in H. contradiction.
  - assert (F : ~ Forall (fun e => valid_adc (ClienteUDP.adc e) = true) es).
    { intro F. apply D in F. destruct F as [st' F]. discriminate. }
    split.
    + split; [intros [st H]; discriminate | intro H; contradiction].
    + split; [intros _; apply X; exact F | reflexivity].
Qed.

Lemma main_in_loop_inv
    (se : ClienteUDP.setup_env) (es : list ClienteUDP.cycle_env)
    (st : ClienteUDP.state) :
  ClienteUDP.main se es = ClienteUDP.InLoop st ->
  0 <= ClienteUDP.socket_result se
  /\ 0 < ClienteUDP.inet_pton_result se
  /\ ClienteUDP.loop
       {| ClienteUDP.ldr := ClienteUDP.SensorLDR_new ADC_PATH;
          ClienteUDP.client_socket := ClienteUDP.socket_result se;
          ClienteUDP.out := [EvCout "Socket UDP criado com sucesso."] |} es
     = Some st.
Proof.
  unfold ClienteUDP.main.
  destruct (ClienteUDP.socket_result se <? 0) eqn:S; [discriminate |].
  destruct (ClienteUDP.inet_pton_result se <=? 0) eqn:I; [discriminate |].
  apply Z.ltb_ge in S. apply Z.leb_gt in I.
  destruct (ClienteUDP.loop _ es) as [st1 |]; [| discriminate].
  intro H. injection H as <-. repeat split; assumption.
Qed.

(** X3. Accounting of the UDP client's loop: after any number of turns
    one datagram has been handed to [sendto] per turn, the program has
    slept once per turn whose [sendto] did not return -1 and never after
    one that did, and it has called [perror] once per turn whose [sendto]
    returned -1. *)
Theorem main_loop_accounting
    (se : ClienteUDP.setup_env) (es : list ClienteUDP.cycle_env)
    (st : ClienteUDP.state) :
  ClienteUDP.main se es = ClienteUDP.InLoop st ->
  length (filter is_sendto (ClienteUDP.out st)) = length es
  /\ length (filter is_sleep (ClienteUDP.out st)) = length (filter send_ok es)
  /\ (length (filter is_perror (ClienteUDP.out st))
      + length (filter send_ok es))%nat = length es.
Proof.
  intro H. destruct (main_in_loop_inv se es st H) as [_ [_ L]].
  destruct (loop_observations es _ _ L) as [A [B [C _]]].
  cbn [ClienteUDP.out filter is_sendto is_sleep is_perror length] in A, B, C.
  repeat split; lia.
Qed.

(** X4. While the UDP client is in its loop the socket is never closed,
    and every datagram goes out on the descriptor that [socket]
    returned. *)
Theorem main_loop_socket
    (se : ClienteUDP.setup_env) (es : list ClienteUDP.cycle_env)
    (st : ClienteUDP.state) :
  ClienteUDP.main se es = ClienteUDP.InLoop st ->
  filter is_close (ClienteUDP.out st) = []
  /\ Forall (sent_on (ClienteUDP.socket_result se)) (ClienteUDP.out st)
  /\ ClienteUDP.client_socket st = ClienteUDP.socket_result se
  /\ 0 <= ClienteUDP.socket_result se.
Proof.
  intro H. destruct (main_in_loop_inv se es st H) as [S [_ L]].
  destruct (loop_observations es _ _ L) as [_ [_ [_ [D [E F]]]]].
  cbn [ClienteUDP.out ClienteUDP.client_socket filter is_close] in D, E, F.
  repeat split; try assumption.
  apply E. repeat constructor.
Qed.

(** A run of three turns: a failed send with the file missing, a
    successful send of code 0, a failed send of code 4095. *)
Lemma main_three_turns :
  ClienteUDP.main
    {| ClienteUDP.socket_result := 3; ClienteUDP.inet_pton_result := 1 |}
    [ {| ClienteUDP.adc := Unavailable; ClienteUDP.sendto_result := -1 |};
      {| ClienteUDP.adc := Available 0; ClienteUDP.sendto_result := 1 |};
      {| ClienteUDP.adc := Available 4095; ClienteUDP.sendto_result := -1 |} ]
  = ClienteUDP.InLoop
      {| ClienteUDP.ldr := ClienteUDP.SensorLDR_new ADC_PATH;
         ClienteUDP.client_socket := 3;
         ClienteUDP.out :=
           [ EvCout "Socket UDP criado com sucesso.";
             EvCerr "Erro: Nao foi possivel abrir o arquivo ADC em /sys/bus/iio/devices/iio:device0/in_voltage13_raw";
             EvSendto 3 "0" 1;
             EvPerror "Erro ao enviar datagrama";
             EvSendto 3 "0" 1;
             EvCout "Datagrama enviado (1 bytes) para 192.168.42.10:8080";
             EvCout "Luminosidade: 0%";
             EvSleep 1;
             EvSendto 3 "100" 3;
             EvPerror "Erro ao enviar datagrama" ] |}.
Proof.
  unfold ClienteUDP.main.
  cbn [ClienteUDP.socket_result ClienteUDP.inet_pton_result Z.ltb Z.leb
       Z.compare].
  rewrite loop_cons. cbn [ClienteUDP.ldr ClienteUDP.client_socket].
  rewrite (cycle_events_of_ler _ _
             {| ClienteUDP.adc := Unavailable;
                ClienteUDP.sendto_result := -1 |}
             0 _ (udp_ler_unavailable ADC_PATH)).
  rewrite loop_cons.
  cbn [ClienteUDP.emit ClienteUDP.ldr ClienteUDP.client_socket].
  rewrite (cycle_events_of_ler _ _
             {| ClienteUDP.adc := Available 0;
                ClienteUDP.sendto_result := 1 |}
             0 [] (udp_ler_zero ADC_PATH)).
  rewrite loop_cons.
  cbn [ClienteUDP.emit ClienteUDP.ldr ClienteUDP.client_socket].
  rewrite (cycle_events_of_ler _ _
             {| ClienteUDP.adc := Available 4095;
                ClienteUDP.sendto_result := -1 |}
             100 [] (udp_ler_max ADC_PATH)).
  reflexivity.
Qed.

End LoopTraces.

(** The setup succeeds and the three turns are valid. *)
Lemma main_stays_in_loop_witness :
  ((exists st,
      ClienteUDP.main
        {| ClienteUDP.socket_result := 3; ClienteUDP.inet_pton_result := 1 |}
        [ {| ClienteUDP.adc := Unavailable; ClienteUDP.sendto_result := -1 |};
          {| ClienteUDP.adc := Available 0; ClienteUDP.sendto_result := 1 |};
          {| ClienteUDP.adc := Available 4095;
             ClienteUDP.sendto_result := -1 |} ]
      = ClienteUDP.InLoop st)
   <-> Forall (fun e => valid_adc (ClienteUDP.adc e) = true)
         [ {| ClienteUDP.adc := Unavailable; ClienteUDP.sendto_result := -1 |};
           {| ClienteUDP.adc := Available 0; ClienteUDP.sendto_result := 1 |};
           {| ClienteUDP.adc := Available 4095;
              ClienteUDP.sendto_result := -1 |} ])
  /\
  (ClienteUDP.main
     {| ClienteUDP.socket_result := 3; ClienteUDP.inet_pton_result := 1 |}
     [ {| ClienteUDP.adc := Unavailable; ClienteUDP.sendto_result := -1 |};
       {| ClienteUDP.adc := Available 0; ClienteUDP.sendto_result := 1 |};
       {| ClienteUDP.adc := Available 4095;
          ClienteUDP.sendto_result := -1 |} ]
   = ClienteUDP.Undefined
   <-> Exists (fun e => valid_adc (ClienteUDP.adc e) = false)
         [ {| ClienteUDP.adc := Unavailable; ClienteUDP.sendto_result := -1 |};
           {| ClienteUDP.adc := Available 0; ClienteUDP.sendto_result := 1 |};
           {| ClienteUDP.adc := Available 4095;
              ClienteUDP.sendto_result := -1 |} ]).
Proof.
  apply (main_stays_in_loop
           {| ClienteUDP.socket_result := 3;
              ClienteUDP.inet_pton_result := 1 |}); cbn; lia.
Defined.

(** The accounting of the three turns: three datagrams, one sleep, two
    reports. *)
Lemma main_loop_accounting_witness :
  length (filter is_sendto
            [ EvCout "Socket UDP criado com sucesso.";
              EvCerr "Erro: Nao foi possivel abrir o arquivo ADC em /sys/bus/iio/devices/iio:device0/in_voltage13_raw";
              EvSendto 3 "0" 1;
              EvPerror "Erro ao enviar datagrama";
              EvSendto 3 "0" 1;
              EvCout "Datagrama enviado (1 bytes) para 192.168.42.10:8080";
              EvCout "Luminosidade: 0%";
              EvSleep 1;
              EvSendto 3 "100" 3;
              EvPerror "Erro ao enviar datagrama" ]) = 3%nat
  /\ length (filter is_sleep
               [ EvCout "Socket UDP criado com sucesso.";
                 EvCerr "Erro: Nao foi possivel abrir o arquivo ADC em /sys/bus/iio/devices/iio:device0/in_voltage13_raw";
                 EvSendto 3 "0" 1;
                 EvPerror "Erro ao enviar datagrama";
                 EvSendto 3 "0" 1;
                 EvCout "Datagrama enviado (1 bytes) para 192.168.42.10:8080";
                 EvCout "Luminosidade: 0%";
                 EvSleep 1;
                 EvSendto 3 "100" 3;
                 EvPerror "Erro ao enviar datagrama" ]) = 1%nat
  /\ (length (filter is_perror
                [ EvCout "Socket UDP criado com sucesso.";
                  EvCerr "Erro: Nao foi possivel abrir o arquivo ADC em /sys/bus/iio/devices/iio:device0/in_voltage13_raw";
                  EvSendto 3 "0" 1;
                  EvPerror "Erro ao enviar datagrama";
                  EvSendto 3 "0" 1;
                  EvCout "Datagrama enviado (1 bytes) para 192.168.42.10:8080";
                  EvCout "Luminosidade: 0%";
                  EvSleep 1;
                  EvSendto 3 "100" 3;
                  EvPerror "Erro ao enviar datagrama" ]) + 1)%nat = 3%nat.
Proof.
  exact (main_loop_accounting _ _ _ main_three_turns).
Defined.

(** The socket of the three turns. *)
Lemma main_loop_socket_witness :
  filter is_close
    [ EvCout "Socket UDP criado com sucesso.";
      EvCerr "Erro: Nao foi possivel abrir o arquivo ADC em /sys/bus/iio/devices/iio:device0/in_voltage13_raw";
      EvSendto 3 "0" 1;
      EvPerror "Erro ao enviar datagrama";
      EvSendto 3 "0" 1;
      EvCout "Datagrama enviado (1 bytes) para 192.168.42.10:8080";
      EvCout "Luminosidade: 0%";
      EvSleep 1;
      EvSendto 3 "100" 3;
      EvPerror "Erro ao enviar datagrama" ] = []
  /\ Forall (sent_on 3)
       [ EvCout "Socket UDP criado com sucesso.";
         EvCerr "Erro: Nao foi possivel abrir o arquivo ADC em /sys/bus/iio/devices/iio:device0/in_voltage13_raw";
         EvSendto 3 "0" 1;
         EvPerror "Erro ao enviar datagrama";
         EvSendto 3 "0" 1;
         EvCout "Datagrama enviado (1 bytes) para 192.168.42.10:8080";
         EvCout "Luminosidade: 0%";
         EvSleep 1;
         EvSendto 3 "100" 3;
         EvPerror "Erro ao enviar datagrama" ]
  /\ 3%Z = 3%Z
  /\ (0 <= 3)%Z.
Proof.
  exact (main_loop_socket _ _ _ main_three_turns).
Defined.

(* ================================================================= *)
(** ** Payloads and the console loop                                  *)
(* ================================================================= *)

Section Payloads.

Local Open Scope Z_scope.

Lemma to_string_percent_length (v : Z) :
  0 <= v <= 100 ->
  (1 <= String.length (to_string v) <= 3)%nat.
Proof.
  intro H.
  assert (A : forallb
                (fun n => let m := to_string (Z.of_nat n) in
                          Nat.leb 1 (String.length m)
                          && Nat.leb (String.length m) 3)
                (seq 0 101) = true) by (vm_compute; reflexivity).
  rewrite forallb_forall in A.
  specialize (A (Z.to_nat v)).
  rewrite Z2Nat.id in A by lia. cbv zeta in A.
  assert (I : In (Z.to_nat v) (seq 0 101)) by (apply in_seq; lia).
  apply A in I. apply andb_prop in I. destruct I as [I1 I2].
  apply Nat.leb_le in I1, I2. split; assumption.
Qed.

(** X9. In every turn that finds the ADC file missing or holding a code
    in 0..4095, the datagram handed to [sendto] is the rendering of a
    percentage between 0 and 100: one to three bytes, all decimal
    digits, with the length argument equal to the number of bytes. *)
Theorem valid_turn_payload
    (p : string) (fd : Z) (e : ClienteUDP.cycle_env) :
  valid_adc (ClienteUDP.adc e) = true ->
  exists (trace : list event) (v : Z),
    ClienteUDP.cycle_events (ClienteUDP.SensorLDR_new p) fd e = Some trace
    /\ filter is_sendto trace =
       [EvSendto fd (to_string v) (String.length (to_string v))]
    /\ 0 <= v <= 100
    /\ (1 <= String.length (to_string v) <= 3)%nat
    /\ all_digits (to_string v) = true.
Proof.
  intro H. destruct (udp_ler_valid_adc p _ H) as [v [evs [Hler Hr]]].
  destruct (filter_sendto_cycle _ fd e v evs Hler) as [trace [Hc Hf]].
  exists trace, v. split; [exact Hc |]. split; [exact Hf |].
  split; [exact Hr |].
  split; [apply to_string_percent_length; exact Hr |].
  apply all_digits_to_string. lia.
Qed.

(** The turns the console program can execute on its default sensor. *)
Lemma standalone_cycle_defined_iff (p : string) (src : adc_source) :
  (exists t, Standalone.cycle (Standalone.SensorLDR_new p) src = Some t)
  <-> in_range_adc src = true.
Proof.
  unfold Standalone.cycle. destruct src as [| raw]; cbn [in_range_adc].
  - cbn. split; [intros [t H]; discriminate | discriminate].
  - split.
    + intros [t H]. apply andb_true_intro.
      destruct (Z_lt_ge_dec raw 0) as [A | A].
      { rewrite std_ler_outside in H by (left; exact A). discriminate. }
      destruct (Z_lt_ge_dec 4095 raw) as [B | B].
      { rewrite std_ler_outside in H by (right; exact B). discriminate. }
      split; apply Z.leb_le; lia.
    + intro H. apply andb_prop in H. destruct H as [H1 H2].
      apply Z.leb_le in H1, H2.
      destruct (both_ler_valid p raw) as [v [_ [Hs _]]];
        [unfold Spec.ADC_max; lia |].
      rewrite Hs. eexists. reflexivity.
Qed.

End Payloads.

(** A turn that reads code 4095 with a successful send. *)
Lemma valid_turn_payload_witness :
  exists (trace : list event) (v : Z),
    ClienteUDP.cycle_events (ClienteUDP.SensorLDR_new ADC_PATH) 3
      {| ClienteUDP.adc := Available 4095; ClienteUDP.sendto_result := 3 |}
    = Some trace
    /\ filter is_sendto trace =
       [EvSendto 3 (to_string v) (String.length (to_string v))]
    /\ (0 <= v <= 100)%Z
    /\ (1 <= String.length (to_string v) <= 3)%nat
    /\ all_digits (to_string v) = true.
Proof.
  apply (valid_turn_payload ADC_PATH 3
           {| ClienteUDP.adc := Available 4095;
              ClienteUDP.sendto_result := 3 |}).
  reflexivity.
Defined.


(* ================================================================= *)
(** ** Acquisition failure in the UDP client                          *)
(* ================================================================= *)

Section AcquisitionFailure.

Local Open Scope Z_scope.

(** On valid turns the loop executes every one of them, in order. *)
Lemma loop_runs_valid_turns (p : string) (es : list ClienteUDP.cycle_env) :
  forall st : ClienteUDP.state,
  ClienteUDP.ldr st = ClienteUDP.SensorLDR_new p ->
  Forall (fun e => valid_adc (ClienteUDP.adc e) = true) es ->
  exists traces : list (list event),
    Forall2 (fun e t =>
               ClienteUDP.cycle_events (ClienteUDP.SensorLDR_new p)
                 (ClienteUDP.client_socket st) e = Some t) es traces
    /\ ClienteUDP.loop st es = Some (ClienteUDP.emit st (concat traces)).
Proof.
  induction es as [| e rest IH]; intros st Hl Hv.
  - exists []. split; [constructor |].
    cbn [ClienteUDP.loop concat]. rewrite emit_nil. reflexivity.
  - inversion Hv as [| ? ? He Hrest]; subst.
    apply (turn_defined_iff p (ClienteUDP.client_socket st)) in He.
    destruct He as [t E].
    destruct (IH (ClienteUDP.emit st t) Hl Hrest) as [traces [HF HL]].
    exists (t :: traces). split.
    + constructor; [exact E | exact HF].
    + rewrite loop_cons, Hl, E, HL. cbn [concat]. rewrite emit_app.
      reflexivity.
Qed.

(** C7. Acquisition failure in the UDP client: when the ADC file cannot
    be opened, [lerValor] writes the error line to [cerr] and returns the
    initial 0; the turn is defined and sends the payload computed from
    that sample (0); and the loop goes on: it then executes every
    remaining turn, each with the events of its own, after the events of
    the failed one. *)
Theorem acquisition_failure_defaults_to_zero
    (p : string) (fd : Z) (o : list event) (s : Z)
    (rest : list ClienteUDP.cycle_env) :
  let l := ClienteUDP.SensorLDR_new p in
  let report :=
    EvCerr ("Erro: Nao foi possivel abrir o arquivo ADC em " ++ p) in
  let st :=
    {| ClienteUDP.ldr := l; ClienteUDP.client_socket := fd;
       ClienteUDP.out := o |} in
  let e :=
    {| ClienteUDP.adc := Unavailable; ClienteUDP.sendto_result := s |} in
  let turn :=
    report :: EvSendto fd "0" 1 ::
    (if s =? -1
     then [EvPerror "Erro ao enviar datagrama"]
     else [EvCout ("Datagrama enviado (" ++ to_string s
                   ++ " bytes) para " ++ ClienteUDP.SERVER_IP
                   ++ ":" ++ to_string ClienteUDP.PORT);
           EvCout "Luminosidade: 0%";
           EvSleep 1]) in
  ClienteUDP.lerValor l Unavailable = (0, [report])
  /\ ClienteUDP.lerLuminosidadePercentual l Unavailable = (Some 0, [report])
  /\ ClienteUDP.cycle st e =
     Some {| ClienteUDP.ldr := l; ClienteUDP.client_socket := fd;
             ClienteUDP.out := o ++ turn |}
  /\ (Forall (fun e' => valid_adc (ClienteUDP.adc e') = true) rest ->
      exists traces : list (list event),
        Forall2 (fun e' t => ClienteUDP.cycle_events l fd e' = Some t)
                rest traces
        /\ ClienteUDP.loop st (e :: rest) =
           Some {| ClienteUDP.ldr := l; ClienteUDP.client_socket := fd;
                   ClienteUDP.out := o ++ turn ++ concat traces |}).
Proof.
  intros l report st e turn.
  assert (E : ClienteUDP.cycle_events l fd e = Some turn).
  { unfold e. rewrite (cycle_events_of_ler l fd
               {| ClienteUDP.adc := Unavailable;
                  ClienteUDP.sendto_result := s |}
               0 [report] (udp_ler_unavailable p)).
    reflexivity. }
  split; [reflexivity |].
  split; [apply udp_ler_unavailable |].
  split.
  { unfold ClienteUDP.cycle.
    cbn [ClienteUDP.ldr ClienteUDP.client_socket st]. rewrite E. reflexivity. }
  intro Hv.
  destruct (loop_runs_valid_turns p rest (ClienteUDP.emit st turn) eq_refl Hv)
    as [traces [HF HL]].
  exists traces. split; [exact HF |].
  rewrite loop_cons. cbn [ClienteUDP.ldr ClienteUDP.client_socket st].
  rewrite E, HL, emit_app. reflexivity.
Qed.

End AcquisitionFailure.

(** A failed acquisition with a failed send, followed by two valid
    turns. *)
Lemma acquisition_failure_defaults_to_zero_witness :
  exists traces : list (list event),
    Forall2 (fun e' t =>
               ClienteUDP.cycle_events (ClienteUDP.SensorLDR_new ADC_PATH) 3 e'
               = Some t)
      [ {| ClienteUDP.adc := Available 0; ClienteUDP.sendto_result := 1 |};
        {| ClienteUDP.adc := Unavailable; ClienteUDP.sendto_result := 1 |} ]
      traces
    /\ ClienteUDP.loop
         {| ClienteUDP.ldr := ClienteUDP.SensorLDR_new ADC_PATH;
            ClienteUDP.client_socket := 3;
            ClienteUDP.out := [] |}
         [ {| ClienteUDP.adc := Unavailable; ClienteUDP.sendto_result := -1 |};
           {| ClienteUDP.adc := Available 0; ClienteUDP.sendto_result := 1 |};
           {| ClienteUDP.adc := Unavailable; ClienteUDP.sendto_result := 1 |} ]
       = Some
           {| ClienteUDP.ldr := ClienteUDP.SensorLDR_new ADC_PATH;
              ClienteUDP.client_socket := 3;
              ClienteUDP.out :=
                [] ++
                [ EvCerr "Erro: Nao foi possivel abrir o arquivo ADC em /sys/bus/iio/devices/iio:device0/in_voltage13_raw";
                  EvSendto 3 "0" 1;
                  EvPerror "Erro ao enviar datagrama" ]
                ++ concat traces |}.
Proof.
  apply (proj2 (proj2 (proj2
           (acquisition_failure_defaults_to_zero ADC_PATH 3 [] (-1)
              [ {| ClienteUDP.adc := Available 0;
                   ClienteUDP.sendto_result := 1 |};
                {| ClienteUDP.adc := Unavailable;
                   ClienteUDP.sendto_result := 1 |} ])))).
  repeat constructor.
Defined.

(* ================================================================= *)
(** ** The two programs side by side, with the built-in calibration   *)
(* ================================================================= *)

Section SideBySide.

Local Open Scope Z_scope.

(** On every reading the method of the UDP client returns what the
    method of the console program returns, and writes nothing. *)
Lemma builtin_ler_agree (p : string) (raw : Z) :
  ClienteUDP.lerLuminosidadePercentual (ClienteUDP.SensorLDR_new p)
    (Available raw)
  = (Standalone.lerLuminosidadePercentual (Standalone.SensorLDR_new p)
       (Available raw), []).
Proof.
  destruct (Z_lt_ge_dec raw 0) as [A | A].
  { rewrite udp_ler_outside, std_ler_outside by (left; exact A).
    reflexivity. }
  destruct (Z_lt_ge_dec Spec.ADC_max raw) as [B | B].
  { rewrite udp_ler_outside, std_ler_outside by (right; exact B).
    reflexivity. }
  destruct (both_ler_valid p raw) as [v [Hu [Hs _]]]; [lia |].
  rewrite Hu, Hs. reflexivity.
Qed.

Lemma std_ler_range (p : string) (src : adc_source) (v : Z) :
  Standalone.lerLuminosidadePercentual (Standalone.SensorLDR_new p) src
  = Some v ->
  0 <= v <= 100.
Proof.
  destruct src as [| raw]; [discriminate |]. intro H.
  destruct (Z_lt_ge_dec raw 0) as [A | A].
  { rewrite std_ler_outside in H by (left; exact A). discriminate. }
  destruct (Z_lt_ge_dec Spec.ADC_max raw) as [B | B].
  { rewrite std_ler_outside in H by (right; exact B). discriminate. }
  destruct (udp_ler_valid p raw) as [w [Hu Hr]]; [lia |].
  rewrite builtin_ler_agree, H in Hu. injection Hu as <-. exact Hr.
Qed.

(** C10. The two variants implement the same model with the calibration
    constants both files initialise their members with: for every raw
    value read from the ADC file, [lerLuminosidadePercentual] of
    [clienteUDP_sensor_ldr.cpp] returns what [lerLuminosidadePercentual]
    of [sensor_ldr.cpp] returns (and writes nothing on the way); the
    common result is an integer exactly on the codes 0..4095. *)
Theorem lerLuminosidadePercentual_variants_agree (p : string) (raw : Z) :
  ClienteUDP.lerLuminosidadePercentual (ClienteUDP.SensorLDR_new p)
    (Available raw)
  = (Standalone.lerLuminosidadePercentual (Standalone.SensorLDR_new p)
       (Available raw), [])
  /\ ((exists v : Z,
         Standalone.lerLuminosidadePercentual (Standalone.SensorLDR_new p)
           (Available raw) = Some v)
      <-> 0 <= raw <= Spec.ADC_max).
Proof.
  split; [apply builtin_ler_agree |].
  split.
  - intros [v H].
    destruct (Z_lt_ge_dec raw 0) as [A | A].
    { rewrite std_ler_outside in H by (left; exact A). discriminate. }
    destruct (Z_lt_ge_dec Spec.ADC_max raw) as [B | B].
    { rewrite std_ler_outside in H by (right; exact B). discriminate. }
    lia.
  - intro H. destruct (both_ler_valid p raw H) as [v [_ [Hs _]]].
    exists v. exact Hs.
Qed.

(** X11. With the built-in calibration, a turn of the UDP client whose
    [sendto] succeeds is the turn of the console program on the same
    reading, preceded by the datagram and the line that reports it: both
    print the same luminosity line, of a percentage in 0..100, and then
    sleep one second. *)
Theorem udp_turn_extends_console_turn
    (p : string) (raw fd s : Z) (t : list event) :
  s <> -1 ->
  Standalone.cycle (Standalone.SensorLDR_new p) (Available raw) = Some t ->
  exists v : Z,
    Standalone.lerLuminosidadePercentual (Standalone.SensorLDR_new p)
      (Available raw) = Some v
    /\ 0 <= v <= 100
    /\ t = [EvCout ("Luminosidade: " ++ to_string v ++ "%"); EvSleep 1]
    /\ ClienteUDP.cycle_events (ClienteUDP.SensorLDR_new p) fd
         {| ClienteUDP.adc := Available raw; ClienteUDP.sendto_result := s |}
       = Some (EvSendto fd (to_string v) (String.length (to_string v))
               :: EvCout ("Datagrama enviado (" ++ to_string s
                          ++ " bytes) para " ++ ClienteUDP.SERVER_IP ++ ":"
                          ++ to_string ClienteUDP.PORT)
               :: t).
Proof.
  intros Hs Hc. unfold Standalone.cycle in Hc.
  destruct (Standalone.lerLuminosidadePercentual
              (Standalone.SensorLDR_new p) (Available raw))
    as [v |] eqn:Ev; [| discriminate].
  injection Hc as <-. exists v. split; [reflexivity |].
  split; [apply (std_ler_range p (Available raw) v Ev) |].
  split; [reflexivity |].
  assert (Eu : ClienteUDP.lerLuminosidadePercentual
                 (ClienteUDP.SensorLDR_new p) (Available raw)
               = (Some v, [])).
  { rewrite builtin_ler_agree, Ev. reflexivity. }
  rewrite (cycle_events_of_ler _ fd
             {| ClienteUDP.adc := Available raw;
                ClienteUDP.sendto_result := s |} v [] Eu).
  cbn [ClienteUDP.sendto_result]. apply Z.eqb_neq in Hs. rewrite Hs.
  reflexivity.
Qed.

(** The trace of the console loop on the readings it can process. *)
Lemma standalone_loop_trace (p : string) (srcs : list adc_source) :
  forall trace : list event,
  Standalone.loop (Standalone.SensorLDR_new p) srcs = Some trace ->
  exists vs : list Z,
    Forall2 (fun src v =>
               Standalone.lerLuminosidadePercentual
                 (Standalone.SensorLDR_new p) src = Some v
               /\ 0 <= v <= 100) srcs vs
    /\ trace =
       flat_map (fun v =>
                   [EvCout ("Luminosidade: " ++ to_string v ++ "%");
                    EvSleep 1]) vs.
Proof.
  induction srcs as [| src rest IH]; intros trace H;
    cbn [Standalone.loop] in H.
  - injection H as <-. exists []. split; [constructor | reflexivity].
  - unfold Standalone.cycle in H.
    destruct (Standalone.lerLuminosidadePercentual
                (Standalone.SensorLDR_new p) src) as [v |] eqn:Ev;
      [| discriminate].
    destruct (Standalone.loop (Standalone.SensorLDR_new p) rest)
      as [t' |]; [| discriminate].
    injection H as <-. destruct (IH t' eq_refl) as [vs [HF ->]].
    exists (v :: vs). split.
    + constructor; [| exact HF].
      split; [exact Ev | apply (std_ler_range p src v Ev)].
    + reflexivity.
Qed.

Lemma standalone_loop_defined_iff (p : string) (srcs : list adc_source) :
  (exists trace,
     Standalone.loop (Standalone.SensorLDR_new p) srcs = Some trace)
  <-> Forall (fun src => in_range_adc src = true) srcs.
Proof.
  induction srcs as [| src rest [IH1 IH2]]; cbn [Standalone.loop].
  - split; [intros _; constructor | intros _; eexists; reflexivity].
  - pose proof (standalone_cycle_defined_iff p src) as [D1 D2].
    split.
    + intros [trace H].
      destruct (Standalone.cycle (Standalone.SensorLDR_new p) src)
        as [t |]; [| discriminate].
      destruct (Standalone.loop (Standalone.SensorLDR_new p) rest)
        as [t' |]; [| discriminate].
      constructor; [apply D1 | apply IH1]; eexists; reflexivity.
    + intro F. inversion F as [| ? ? Hin Frest]; subst.
      destruct (D2 Hin) as [t ->]. destruct (IH2 Frest) as [t' ->].
      eexists. reflexivity.
Qed.

(** X12. The console program goes through [n] turns exactly when each
    of them finds the ADC file open with a code in 0..4095 (there is no
    check of the stream: a missing file leaves [valor] uninitialised);
    its trace is then, turn after turn, the line with the percentage of
    that turn's reading, a value in 0..100, followed by a sleep of one
    second, and nothing else. *)
Theorem standalone_main_trace (srcs : list adc_source) :
  ((exists trace, Standalone.main srcs = Some trace)
   <-> Forall (fun src => in_range_adc src = true) srcs)
  /\
  (forall trace,
     Standalone.main srcs = Some trace ->
     exists vs : list Z,
       Forall2 (fun src v =>
                  Standalone.lerLuminosidadePercentual
                    (Standalone.SensorLDR_new ADC_PATH) src = Some v
                  /\ 0 <= v <= 100) srcs vs
       /\ trace =
          flat_map (fun v =>
                      [EvCout ("Luminosidade: " ++ to_string v ++ "%");
                       EvSleep 1]) vs).
Proof.
  unfold Standalone.main. split.
  - apply standalone_loop_defined_iff.
  - apply standalone_loop_trace.
Qed.

End SideBySide.

(** The two programs on their default sensors at code 0. *)
Lemma udp_turn_extends_console_turn_witness :
  exists v : Z,
    Standalone.lerLuminosidadePercentual
      (Standalone.SensorLDR_new ADC_PATH) (Available 0) = Some v
    /\ (0 <= v <= 100)%Z
    /\ [EvCout "Luminosidade: 0%"; EvSleep 1]
       = [EvCout ("Luminosidade: " ++ to_string v ++ "%"); EvSleep 1]
    /\ ClienteUDP.cycle_events (ClienteUDP.SensorLDR_new ADC_PATH) 3
         {| ClienteUDP.adc := Available 0; ClienteUDP.sendto_result := 1 |}
       = Some (EvSendto 3 (to_string v) (String.length (to_string v))
               :: EvCout ("Datagrama enviado (" ++ to_string 1
                          ++ " bytes) para " ++ ClienteUDP.SERVER_IP ++ ":"
                          ++ to_string ClienteUDP.PORT)
               :: [EvCout "Luminosidade: 0%"; EvSleep 1]).
Proof.
  apply (udp_turn_extends_console_turn ADC_PATH 0 3 1).
  - discriminate.
  - unfold Standalone.cycle. rewrite (std_ler_zero ADC_PATH). reflexivity.
Defined.
